(** * hidden-states: capture of layer outputs into a CSV table

    A shallow embedding of [examples/hidden-states/hidden-states.cpp] and the
    properties of its callback, its tensor printer and its [main].

    The C++ program registers [ggml_eval_layer_output] with the graph
    scheduler.  The scheduler calls it once per node with [ask = true]; when
    the answer is [true] it calls it again with [ask = false] and the
    callback prints every element of the tensor as one CSV row.

    Conventions of the embedding:
    - machine integers are [Z] with the wrap-around written out ([to_size_t]);
    - memory behind a [uint8_t *] is a [list byte]; a read outside it has no
      defined behaviour in C++ and is the fault [undefined_behaviour] here;
    - a C [float] is its 32-bit IEEE-754 pattern ([float32]); the host is
      little-endian;
    - [GGML_ABORT] ends the process: the fault [fatal_error]; so does an
      exception that nothing catches: the fault [uncaught_exception];
    - the functions of ggml that the program calls and whose code is not part
      of the example are the fields of the class [ggml_api]. *)

From Stdlib Require Import ZArith List String Ascii Bool Lia.
From Stdlib Require Import Strings.Byte.
From Stdlib Require Import Numbers.DecimalString.
From Stdlib Require Numbers.DecimalZ Numbers.DecimalPos.
From Stdlib Require Import Floats.SpecFloat.
Import ListNotations.
Local Open Scope Z_scope.

(* ================================================================= *)
(** ** Faults and the result monad *)

Inductive fault : Type :=
| fatal_error (msg : string)      (* GGML_ABORT(msg) *)
| uncaught_exception (what : string)  (* std::terminate *)
| undefined_behaviour.            (* a read outside the buffer it indexes *)

Inductive result (A : Type) : Type :=
| Ok (a : A)
| Fault (f : fault).
Arguments Ok {A} a.
Arguments Fault {A} f.

Definition bind {A B : Type} (m : result A) (k : A -> result B) : result B :=
  match m with
  | Ok a => k a
  | Fault f => Fault f
  end.

Notation "x <- m ;; k" := (bind m (fun x => k))
  (at level 61, m at next level, right associativity).

Definition of_option {A : Type} (o : option A) : result A :=
  match o with
  | Some a => Ok a
  | None => Fault undefined_behaviour
  end.

(** [for (int64_t i = 0; i < hi; i++) body(i)], the state threaded through
    the iterations; the loop stops at the first fault. *)
Fixpoint for_loop {S : Type} (n : nat) (i : Z) (body : Z -> S -> result S)
    (s : S) : result S :=
  match n with
  | O => Ok s
  | Datatypes.S n' => s' <- body i s ;; for_loop n' (i + 1) body s'
  end.

Definition for_lt {S : Type} (hi : Z) (body : Z -> S -> result S) (s : S)
    : result S :=
  for_loop (Z.to_nat hi) 0 body s.

(* ================================================================= *)
(** ** Machine integers and memory *)

(** Conversion to [size_t] (64 bits, unsigned). *)
Definition to_size_t (x : Z) : Z := x mod 2 ^ 64.

(** The value of a [w]-bit pattern [u] read as a signed integer
    ([int8_t], [int16_t], [int32_t]). *)
Definition signed (w : Z) (u : Z) : Z :=
  if u <? 2 ^ (w - 1) then u else u - 2 ^ w.

Definition buffer : Set := list byte.

Definition load_byte (data : buffer) (i : Z) : option Z :=
  if i <? 0 then None
  else option_map (fun b => Z.of_N (Byte.to_N b)) (nth_error data (Z.to_nat i)).

(** The [n] bytes at [&data[i]] as one unsigned integer, little-endian. *)
Fixpoint load_le (n : nat) (data : buffer) (i : Z) : option Z :=
  match n with
  | O => Some 0
  | S n' =>
      match load_byte data i, load_le n' data (i + 1) with
      | Some b, Some r => Some (Z.lor b (Z.shiftl r 8))
      | _, _ => None
      end
  end.

(* ================================================================= *)
(** ** Single-precision values *)

(** A C [float], as its IEEE-754 binary32 pattern. *)
Record float32 : Set := F32 { float_bits : Z }.

Definition sign_bit (s : bool) : Z := if s then 2 ^ 31 else 0.

(** The pattern of a binary32 value given as a [spec_float] with mantissa
    and exponent normalised for precision 24. *)
Definition bits_of_spec (x : spec_float) : Z :=
  match x with
  | S754_zero s => sign_bit s
  | S754_infinity s => Z.lor (sign_bit s) 0x7F800000
  | S754_nan => 0x7FC00000
  | S754_finite s m e =>
      if Zpos m <? 2 ^ 23
      then Z.lor (sign_bit s) (Zpos m)
      else Z.lor (sign_bit s) (Z.shiftl (e + 150) 23 + (Zpos m - 2 ^ 23))
  end.

(** The value a binary32 pattern denotes. *)
Definition spec_of_bits (b : Z) : spec_float :=
  let s := Z.testbit b 31 in
  let e := Z.land (Z.shiftr b 23) 0xFF in
  let m := Z.land b 0x7FFFFF in
  if e =? 0 then
    if m =? 0 then S754_zero s else S754_finite s (Z.to_pos m) (-149)
  else if e =? 255 then
    if m =? 0 then S754_infinity s else S754_nan
  else S754_finite s (Z.to_pos (m + 2 ^ 23)) (e - 150).

(** The C conversion [(float) n] of an integer, as IEEE-754 hardware does it
    in the default rounding mode: round to nearest, ties to even, at 24 bits
    of precision. *)
Definition float_of_int (n : Z) : float32 :=
  F32 (bits_of_spec (binary_normalize 24 128 n 0 false)).

(** Modelled from the spec: [ggml_fp16_to_fp32] is declared in ggml.h and its
    code is not part of the example; "Float16 encoding: widen via standard
    half->single conversion".  [h] is the binary16 pattern: 1 sign bit,
    5 exponent bits, 10 mantissa bits.  The conversion is exact; infinities
    and NaNs keep their class and NaN payloads move to the top of the wider
    mantissa. *)
Definition ggml_fp16_to_fp32 (h : Z) : float32 :=
  let sign := Z.shiftl (Z.shiftr h 15) 31 in
  let e := Z.land (Z.shiftr h 10) 0x1F in
  let m := Z.land h 0x3FF in
  if e =? 31 then F32 (Z.lor sign (Z.lor 0x7F800000 (Z.shiftl m 13)))
  else if e =? 0 then
    if m =? 0 then F32 sign
    else
      let k := Z.log2 m in
      F32 (Z.lor sign (Z.shiftl (k + 103) 23 + Z.shiftl (m - 2 ^ k) (23 - k)))
  else F32 (Z.lor sign (Z.lor (Z.shiftl (e + 112) 23) (Z.shiftl m 13))).

(** The value a binary16 pattern denotes. *)
Definition spec_of_half (h : Z) : spec_float :=
  let s := Z.testbit h 15 in
  let e := Z.land (Z.shiftr h 10) 0x1F in
  let m := Z.land h 0x3FF in
  if e =? 0 then
    if m =? 0 then S754_zero s else S754_finite s (Z.to_pos m) (-24)
  else if e =? 31 then
    if m =? 0 then S754_infinity s else S754_nan
  else S754_finite s (Z.to_pos (m + 2 ^ 10)) (e - 25).

(** Two [spec_float]s denote the same number: same class and sign, and for
    finite values [m1 * 2^e1 = m2 * 2^e2]. *)
Definition same_value (x y : spec_float) : bool :=
  match x, y with
  | S754_zero s1, S754_zero s2 => Bool.eqb s1 s2
  | S754_infinity s1, S754_infinity s2 => Bool.eqb s1 s2
  | S754_nan, S754_nan => true
  | S754_finite s1 m1 e1, S754_finite s2 m2 e2 =>
      let e := Z.min e1 e2 in
      Bool.eqb s1 s2 && (Zpos m1 * 2 ^ (e1 - e) =? Zpos m2 * 2 ^ (e2 - e))
  | _, _ => false
  end.

(* ================================================================= *)
(** ** Strings of the C library *)

Definition char_code (c : ascii) : Z := Z.of_N (N_of_ascii c).

(** [std::strncmp(s1, s2, n)]: at most [n] characters are compared, the end
    of a string counts as the character 0 and ends the comparison.  The
    result is the difference of the first two characters that differ, 0 when
    there are none. *)
Fixpoint strncmp (s1 s2 : string) (n : nat) : Z :=
  match n with
  | O => 0
  | S n' =>
      match s1, s2 with
      | EmptyString, EmptyString => 0
      | EmptyString, String c2 _ => 0 - char_code c2
      | String c1 _, EmptyString => char_code c1
      | String c1 r1, String c2 r2 =>
          if (char_code c1 =? char_code c2)
          then (if char_code c1 =? 0 then 0 else strncmp r1 r2 n')
          else char_code c1 - char_code c2
      end
  end.

(** [std::to_string(int64_t)]. *)
Definition to_string (n : Z) : string := NilZero.string_of_int (Z.to_int n).

(* ================================================================= *)
(** ** The data of ggml and llama *)

(** Modelled from the spec: the enumeration [ggml_type] of ggml.h is not part
    of the example; "an element encoding tag (one of a fixed enumeration:
    32-bit float, 16-bit float, 8/16/32-bit signed integer, or one of several
    block-quantized encodings)".  The five tags the program names keep their
    names; [tag] is the number of any other member of the enumeration,
    block-quantized ([GGML_TYPE_Q]) or not ([GGML_TYPE_OTHER]: 64-bit
    integers, doubles and the like). *)
Inductive ggml_type : Set :=
| GGML_TYPE_F32
| GGML_TYPE_F16
| GGML_TYPE_I8
| GGML_TYPE_I16
| GGML_TYPE_I32
| GGML_TYPE_Q (tag : N)
| GGML_TYPE_OTHER (tag : N).

Definition ggml_is_quantized (type : ggml_type) : bool :=
  match type with
  | GGML_TYPE_Q _ => true
  | _ => false
  end.

(** Modelled from the spec: the enumeration [llm_arch] of llama-arch.h is not
    part of the example; "for one specific model architecture family".  The
    one architecture the program names, and any other by its number. *)
Inductive llm_arch : Set :=
| LLM_ARCH_WAVTOKENIZER_DEC
| LLM_ARCH_OTHER (tag : N).

Definition llm_arch_eqb (a b : llm_arch) : bool :=
  match a, b with
  | LLM_ARCH_WAVTOKENIZER_DEC, LLM_ARCH_WAVTOKENIZER_DEC => true
  | LLM_ARCH_OTHER x, LLM_ARCH_OTHER y => N.eqb x y
  | _, _ => false
  end.

Definition GGML_MAX_DIMS : nat := 4.

(** An array of [GGML_MAX_DIMS] integers ([int64_t ne[4]], [size_t nb[4]]). *)
Record dims : Set := Dims { d0 : Z; d1 : Z; d2 : Z; d3 : Z }.

Definition dim (a : dims) (k : nat) : Z :=
  match k with
  | 0%nat => d0 a
  | 1%nat => d1 a
  | 2%nat => d2 a
  | _ => d3 a
  end.

(** [struct ggml_tensor], the fields the program reads.  [data] holds the
    bytes at [t->data], in the memory of the backend buffer [t->buffer];
    [buffer_is_host] is [ggml_backend_buffer_is_host(t->buffer)]. *)
Record ggml_tensor : Set := Tensor {
  type : ggml_type;
  buffer_is_host : bool;
  ne : dims;
  nb : dims;
  data : buffer;
  name : string
}.

(** The functions of ggml the program calls and whose code is not part of
    the example. *)
Class ggml_api : Type := {
  ggml_type_name : ggml_type -> string;
  ggml_op_desc : ggml_tensor -> string;
  (** the byte footprint of a tensor, a [size_t] *)
  ggml_nbytes : ggml_tensor -> N;
  (** [ggml_get_type_traits(type)->to_float(data, out, n)]: the [n] floats
      the block-decode routine of a quantized type writes to [out] *)
  to_float : ggml_type -> buffer -> Z -> list float32
}.

(** Modelled from the spec: [ggml_nelements] is declared in ggml.h and its
    code is not part of the example; "the product of its shape extents". *)
Definition ggml_nelements (t : ggml_tensor) : Z :=
  d0 (ne t) * d1 (ne t) * d2 (ne t) * d3 (ne t).

(* ================================================================= *)
(** ** The state of the program *)

(** [std::vector<uint8_t>]: its elements and the capacity of its storage. *)
Record vector : Set := Vector { capacity : Z; elems : buffer }.

Definition size (v : vector) : Z := Z.of_nat (List.length (elems v)).

(** [v.resize(n)].  Shrinking drops the tail and keeps the storage; growing
    appends zero bytes, in place while the storage suffices.  When it does
    not, the new capacity is at least [n]; which one is left to the
    implementation ([growth], of the old capacity, the old size and [n]). *)
Definition resize (growth : Z -> Z -> Z -> Z) (v : vector) (n : Z) : vector :=
  if n <=? size v then Vector (capacity v) (firstn (Z.to_nat n) (elems v))
  else
    let elems' := elems v ++ repeat x00 (Z.to_nat (n - size v)) in
    if n <=? capacity v then Vector (capacity v) elems'
    else Vector (Z.max n (growth (capacity v) (size v) n)) elems'.

(** [struct callback_data]. *)
Record callback_data : Set := CallbackData { cb_data_data : vector }.

(** One line of the output: the seven fields in column order.  The shape and
    the index are the texts of [ggml_ne_string], which the program puts
    between double quotes. *)
Record csv_row : Set := Row {
  row_id : Z;
  row_name : string;
  row_type : string;
  row_op : string;
  row_full_ne : string;
  row_curr_ne : string;
  row_value : float32
}.

Inductive csv_line : Set :=
| header_line (columns : string)
| data_line (r : csv_row).

(** [std::ofstream]: whether [open] succeeded, and the lines inserted so far.
    An insertion into a stream whose [open] failed writes nothing. *)
Record ofstream : Set := Stream { is_open : bool; lines : list csv_line }.

Definition put_line (csv : ofstream) (l : csv_line) : ofstream :=
  if is_open csv then Stream true (lines csv ++ [l]) else csv.

(** The globals [out_csv] and [g_model] (of which only [arch] is read), the
    function-local [static size_t id] of the callback, and the
    [callback_data] that [main] hands to the scheduler as [user_data]. *)
Record session : Set := Session {
  out_csv : ofstream;
  g_model : option llm_arch;      (* [None] is the null pointer *)
  id : Z;
  cb_data : callback_data
}.

(** The statics before [main] runs: a stream that is not open, a null
    [g_model], [id = 0]; and the empty [callback_data] local to [main]. *)
Definition initial_session : session :=
  {| out_csv := Stream false [];
     g_model := None;
     id := 0;
     cb_data := CallbackData (Vector 0 []) |}.

(* ================================================================= *)
(** ** The program *)

(** [ggml_ne_string(const int64_t * ne)]. *)
Fixpoint ggml_ne_string_loop (ne : dims) (n : nat) (i : nat) (str : string)
    : string :=
  match n with
  | O => str
  | S n' =>
      let str := (str ++ to_string (dim ne i))%string in
      let str := if (i + 1 <? GGML_MAX_DIMS)%nat then (str ++ ", ")%string
                 else str in
      ggml_ne_string_loop ne n' (i + 1)%nat str
  end.

Definition ggml_ne_string (ne : dims) : string :=
  let str := ("" ++ "{")%string in
  let str := ggml_ne_string_loop ne GGML_MAX_DIMS 0%nat str in
  (str ++ "}")%string.

(** [ggml_ne_string(const ggml_tensor * t)], the second overload. *)
Definition ggml_ne_string_tensor (t : ggml_tensor) : string :=
  ggml_ne_string (ne t).

(** Line 68: [size_t i = i3 * nb[3] + i2 * nb[2] + i1 * nb[1] + i0 * nb[0]]. *)
Definition elem_offset (nb : dims) (i0 i1 i2 i3 : Z) : Z :=
  to_size_t (i3 * dim nb 3 + i2 * dim nb 2 + i1 * dim nb 1 + i0 * dim nb 0).

(** Lines 69-88: the value [v] of the element at offset [i].
    [unquantized_data] is [None] for the null pointer. *)
Definition decode_element (type : ggml_type) (data : buffer)
    (unquantized_data : option (list float32)) (i : Z) : result float32 :=
  match unquantized_data with
  | None =>
      match type with
      | GGML_TYPE_F16 =>
          h <- of_option (load_le 2 data i) ;; Ok (ggml_fp16_to_fp32 h)
      | GGML_TYPE_F32 =>
          b <- of_option (load_le 4 data i) ;; Ok (F32 b)
      | GGML_TYPE_I32 =>
          b <- of_option (load_le 4 data i) ;; Ok (float_of_int (signed 32 b))
      | GGML_TYPE_I16 =>
          b <- of_option (load_le 2 data i) ;; Ok (float_of_int (signed 16 b))
      | GGML_TYPE_I8 =>
          b <- of_option (load_le 1 data i) ;; Ok (float_of_int (signed 8 b))
      | _ => Fault (fatal_error "fatal error")
      end
  | Some unquantized =>
      if i <? 0 then Fault undefined_behaviour
      else of_option (nth_error unquantized (Z.to_nat i))
  end.

Section Program.

Context {api : ggml_api}.

(** Lines 67-101: the body of the innermost loop. *)
Definition print_element (data : buffer) (id : Z) (t : ggml_tensor)
    (unquantized_data : option (list float32)) (i3 i2 i1 i0 : Z)
    (csv : ofstream) : result ofstream :=
  let i := elem_offset (nb t) i0 i1 i2 i3 in
  v <- decode_element (type t) data unquantized_data i ;;
  let curr_ne := Dims i0 i1 i2 i3 in
  Ok (put_line csv (data_line
        {| row_id := id;
           row_name := name t;
           row_type := ggml_type_name (type t);
           row_op := ggml_op_desc t;
           row_full_ne := ggml_ne_string (ne t);
           row_curr_ne := ggml_ne_string curr_ne;
           row_value := v |})).

(** Lines 56-61: the pointer [unquantized_data], null unless the type is
    quantized.  [new float[n]] with a negative [n] throws
    [std::bad_array_new_length], which nothing catches.  (A lack of memory,
    and the limit the implementation puts on the size of an allocation, are
    not modelled, here or elsewhere.) *)
Definition dequantize (t : ggml_tensor) (data : buffer)
    : result (option (list float32)) :=
  if ggml_is_quantized (type t) then
    if ggml_nelements t <? 0
    then Fault (uncaught_exception "std::bad_array_new_length")
    else Ok (Some (to_float (type t) data (ggml_nelements t)))
  else Ok None.

(** [ggml_print_tensor_to_csv(csv, data, id, t)]. *)
Definition ggml_print_tensor_to_csv (csv : ofstream) (data : buffer) (id : Z)
    (t : ggml_tensor) : result ofstream :=
  unquantized_data <- dequantize t data ;;
  for_lt (dim (ne t) 3) (fun i3 =>
    for_lt (dim (ne t) 2) (fun i2 =>
      for_lt (dim (ne t) 1) (fun i1 =>
        for_lt (dim (ne t) 0) (fun i0 =>
          print_element data id t unquantized_data i3 i2 i1 i0)))) csv.

(** Modelled from the spec: [ggml_backend_tensor_get] is declared in
    ggml-backend.h and its code is not part of the example; "a synchronous
    blocking copy from device memory".  The [size] bytes of the tensor from
    [offset] on; a range outside the tensor's bytes is a fault. *)
Definition ggml_backend_tensor_get (t : ggml_tensor) (offset size : Z)
    : result buffer :=
  if (0 <=? offset) && (0 <=? size)
     && (offset + size <=? Z.of_nat (List.length (data t)))
  then Ok (firstn (Z.to_nat size) (skipn (Z.to_nat offset) (data t)))
  else Fault undefined_behaviour.

(** The growth policy of [std::vector] (see [resize]). *)
Context (growth : Z -> Z -> Z -> Z).

(** [ggml_eval_layer_output(t, ask, user_data)]; the session holds the
    statics and the [callback_data] behind [user_data]. *)
Definition ggml_eval_layer_output (t : ggml_tensor) (ask : bool) (s : session)
    : result (bool * session) :=
  if ask then
    if strncmp (name t) "l_out" 5 =? 0 then Ok (true, s)
    else
      arch <- of_option (g_model s) ;;
      if llm_arch_eqb arch LLM_ARCH_WAVTOKENIZER_DEC
         && ((strncmp (name t) "posnet_out" 10 =? 0)
             || negb (strncmp (name t) "convnext_out" 12 =? 0))
      then Ok (true, s)
      else Ok (false, s)
  else
    (* copy the data from the GPU memory if needed *)
    let is_host := buffer_is_host t in
    cb <- (if negb is_host then
             let n_bytes := Z.of_N (ggml_nbytes t) in
             let v := resize growth (cb_data_data (cb_data s)) n_bytes in
             bytes <- ggml_backend_tensor_get t 0 n_bytes ;;
             Ok (CallbackData (Vector (capacity v) bytes))
           else Ok (cb_data s)) ;;
    csv <- (if negb (ggml_is_quantized (type t)) then
              let data := if is_host then data t
                          else elems (cb_data_data cb) in
              ggml_print_tensor_to_csv (out_csv s) data (id s) t
            else Ok (out_csv s)) ;;
    Ok (true, {| out_csv := csv;
                 g_model := g_model s;
                 id := to_size_t (id s + 1);
                 cb_data := cb |}).

(** [init_csv_columns(csv)]. *)
Definition init_csv_columns (csv : ofstream) : ofstream :=
  put_line csv (header_line "ID,name,type,operation,full_ne,curr_ne,value").

(** What the collaborators answer in one run of the program. *)
Record environment : Set := Environment {
  (** [common_params_parse] accepts the command line *)
  params_parse_ok : bool;
  (** [out_csv.open(params.out_file)] succeeds *)
  out_file_opens : bool;
  (** [common_init_from_params]: the architecture of the model it loads, or
      [None] when the model or the context is null *)
  init_model : option llm_arch;
  (** the nodes the scheduler evaluates during [llama_decode], in order *)
  graph_nodes : list ggml_tensor;
  (** the value [llama_decode] returns *)
  llama_decode_status : Z
}.

(** Modelled from the spec: the scheduler behind [llama_decode] is not part
    of the example; "for every graph node the scheduler invokes the
    Interception Filter in ask mode; if accepted, the scheduler invokes it
    again in deliver mode", and it stops when a Deliver returns false. *)
Fixpoint sched_eval (nodes : list ggml_tensor) (s : session) : result session :=
  match nodes with
  | [] => Ok s
  | t :: rest =>
      r <- ggml_eval_layer_output t true s ;;
      if fst r then
        r' <- ggml_eval_layer_output t false (snd r) ;;
        if fst r' then sched_eval rest (snd r') else Ok (snd r')
      else sched_eval rest (snd r)
  end.

(** How a run of [main] ends: the value it returns, the final statics, and
    the messages of [LOG_ERR] (without their newline). *)
Record outcome : Set := Outcome {
  exit_code : Z;
  final : session;
  errors : list string
}.

(** [run(ctx, params)], with the messages it logs. *)
Definition run (env : environment) (s : session)
    : result (bool * session * list string) :=
  s' <- sched_eval (graph_nodes env) s ;;
  if negb (llama_decode_status env =? 0)
  then Ok (false, s', ["run : failed to eval"%string])
  else Ok (true, s', []).

(** [main(argc, argv)]. *)
Definition main (env : environment) : result outcome :=
  let s := initial_session in
  if negb (params_parse_ok env) then Ok (Outcome 1 s [])
  else
    let csv := Stream (out_file_opens env) [] in      (* out_csv.open(...) *)
    let csv := init_csv_columns csv in
    let s := {| out_csv := csv; g_model := g_model s; id := id s;
                cb_data := cb_data s |} in
    match init_model env with
    | None => Ok (Outcome 1 s ["main : failed to init"%string])
    | Some arch =>
        (* global model needed for architecture check *)
        let s := {| out_csv := out_csv s; g_model := Some arch; id := id s;
                    cb_data := cb_data s |} in
        r <- run env s ;;
        let '(OK, s, log) := r in
        if negb OK then Ok (Outcome 1 s log)
        else Ok (Outcome 0 s log)
    end.

End Program.

(* ================================================================= *)
(** ** Vocabulary of the properties *)

(** *** Lists and loops *)

(** The integers [0, 1, ..., n-1]; empty when [n <= 0]. *)
Definition range (n : Z) : list Z := map Z.of_nat (seq 0 (Z.to_nat n)).

(** A loop over a list, in the result monad. *)
Fixpoint fold_result {A S : Type} (body : A -> S -> result S) (l : list A)
    (s : S) : result S :=
  match l with
  | [] => Ok s
  | a :: l' => s' <- body a s ;; fold_result body l' s'
  end.

(** The results of [f] on the members of a list, up to the first fault. *)
Fixpoint map_result {A B : Type} (f : A -> result B) (l : list A)
    : result (list B) :=
  match l with
  | [] => Ok []
  | a :: l' => b <- f a ;; bs <- map_result f l' ;; Ok (b :: bs)
  end.

(** [f] holds on the [n] integers from [i] on. *)
Fixpoint holds_from (f : Z -> bool) (n : nat) (i : Z) : bool :=
  match n with
  | O => true
  | S n' => f i && holds_from f n' (i + 1)
  end.

(** *** The walk *)

(** The multi-index of the [k]-th element when [i0] varies fastest and [i3]
    slowest: the digits of [k] in the mixed radix [e0, e1, e2]. *)
Definition nth_index (ne : dims) (k : Z) : dims :=
  Dims (k mod d0 ne)
       ((k / d0 ne) mod d1 ne)
       ((k / (d0 ne * d1 ne)) mod d2 ne)
       (k / (d0 ne * d1 ne * d2 ne)).

(** The byte offset of the spec: [i3*s3 + i2*s2 + i1*s1 + i0*s0]. *)
Definition spec_offset (nb idx : dims) : Z :=
  d3 idx * d3 nb + d2 idx * d2 nb + d1 idx * d1 nb + d0 idx * d0 nb.

(** Line 68 at a multi-index. *)
Definition offset_of (nb idx : dims) : Z :=
  elem_offset nb (d0 idx) (d1 idx) (d2 idx) (d3 idx).

(** The position of an element of a contiguous array of floats with the
    shape [ne]. *)
Definition element_index (ne idx : dims) : Z :=
  d0 idx + d0 ne * (d1 idx + d1 ne * (d2 idx + d2 ne * d3 idx)).

(** No extent is negative. *)
Definition nonneg (a : dims) : Prop :=
  0 <= d0 a /\ 0 <= d1 a /\ 0 <= d2 a /\ 0 <= d3 a.

(** [0 <= i_k < e_k] for the four dimensions. *)
Definition below (idx ne : dims) : Prop :=
  0 <= d0 idx < d0 ne /\ 0 <= d1 idx < d1 ne /\
  0 <= d2 idx < d2 ne /\ 0 <= d3 idx < d3 ne.

(** The multi-indices and offsets of a walk over a shape and strides. *)
Definition walk_trace (ne nb : dims) : list (dims * Z) :=
  map (fun k => (nth_index ne k, offset_of nb (nth_index ne k)))
      (range (d0 ne * d1 ne * d2 ne * d3 ne)).

(** *** The decoder *)

(** The width in bytes of what the decoder reads for a type it decodes from
    the bytes. *)
Definition elem_size (type : ggml_type) : Z :=
  match type with
  | GGML_TYPE_F32 | GGML_TYPE_I32 => 4
  | GGML_TYPE_F16 | GGML_TYPE_I16 => 2
  | _ => 1
  end.

(** The five types the decoder converts. *)
Definition decodable (type : ggml_type) : bool :=
  match type with
  | GGML_TYPE_F32 | GGML_TYPE_F16
  | GGML_TYPE_I8 | GGML_TYPE_I16 | GGML_TYPE_I32 => true
  | _ => false
  end.

(** Every element of the tensor lies inside a buffer of [len] bytes, at an
    offset that the arithmetic of [size_t] does not wrap. *)
Definition in_bounds (t : ggml_tensor) (len : Z) : Prop :=
  forall idx, below idx (ne t) ->
    0 <= spec_offset (nb t) idx < 2 ^ 64 /\
    spec_offset (nb t) idx + elem_size (type t) <= len.

(** The values of the [n] bytes at the offset [i] of a buffer, when they all
    lie inside it. *)
Definition bytes_at (bytes : buffer) (i : Z) (n : nat) : option (list Z) :=
  let bs := firstn n (skipn (Z.to_nat i) bytes) in
  if (0 <=? i) && (List.length bs =? n)%nat
  then Some (map (fun b => Z.of_N (Byte.to_N b)) bs)
  else None.

(** The number whose base-256 digits are [bs], least significant first. *)
Definition le_value (bs : list Z) : Z :=
  fold_right (fun b acc => b + 256 * acc) 0 bs.

(** Sign extension of a [w]-bit pattern: bit [w-1] is the sign. *)
Definition sign_extend (w : Z) (u : Z) : Z :=
  if Z.testbit u (w - 1) then u - 2 ^ w else u.

(** An integer as a floating-point value. *)
Definition spec_of_int (z : Z) : spec_float :=
  match z with
  | 0 => S754_zero false
  | Zpos p => S754_finite false p 0
  | Zneg p => S754_finite true p 0
  end.

(** The value of a [float32]. *)
Definition float_value (v : float32) : spec_float :=
  spec_of_bits (float_bits v).

(** Lines 56-61: the dequantized copy of a quantized tensor, or the null
    pointer. *)
Definition unquantized_of {api : ggml_api} (t : ggml_tensor) (data : buffer)
    : option (list float32) :=
  if ggml_is_quantized (type t)
  then Some (to_float (type t) data (ggml_nelements t))
  else None.

(** The value the printer decodes for the [k]-th element it visits. *)
Definition value_of {api : ggml_api} (t : ggml_tensor) (data : buffer) (k : Z)
    : result float32 :=
  decode_element (type t) data (unquantized_of t data)
    (offset_of (nb t) (nth_index (ne t) k)).

(** *** Rows and streams *)

(** Several insertions in a row. *)
Definition put_lines (csv : ofstream) (ls : list csv_line) : ofstream :=
  fold_left put_line ls csv.

(** The row the printer writes for the element [idx] whose value is [v]. *)
Definition row_of {api : ggml_api} (id : Z) (t : ggml_tensor) (idx : dims)
    (v : float32) : csv_line :=
  data_line {| row_id := id;
               row_name := name t;
               row_type := ggml_type_name (type t);
               row_op := ggml_op_desc t;
               row_full_ne := ggml_ne_string (ne t);
               row_curr_ne := ggml_ne_string idx;
               row_value := v |}.

(** The rows of a tensor whose elements, in the order of the walk, have the
    values [vs]. *)
Definition rows_of {api : ggml_api} (id : Z) (t : ggml_tensor)
    (vs : list float32) : list csv_line :=
  map (fun kv => row_of id t (nth_index (ne t) (fst kv)) (snd kv))
      (combine (range (ggml_nelements t)) vs).

(** A line that is a data row, not the header. *)
Definition is_data_line (l : csv_line) : bool :=
  match l with
  | data_line _ => true
  | header_line _ => false
  end.

(** The data rows among the lines of a stream. *)
Definition data_rows (csv : ofstream) : list csv_line :=
  filter is_data_line (lines csv).

(** The sequence id in the first column of a data row. *)
Definition line_id (l : csv_line) : option Z :=
  match l with
  | data_line r => Some (row_id r)
  | header_line _ => None
  end.

(** The text in the current-index column of a line. *)
Definition line_index (l : csv_line) : option string :=
  match l with
  | data_line r => Some (row_curr_ne r)
  | header_line _ => None
  end.

(** *** The Deliver phase *)

(** A vector holds no more elements than its storage has room for. *)
Definition vector_ok (v : vector) : Prop := size v <= capacity v.

(** The scratch vector of a session. *)
Definition scratch (s : session) : vector := cb_data_data (cb_data s).

(** The bytes the Deliver phase decodes: the tensor's own when they are
    host-addressable, else the copy of its byte footprint. *)
Definition delivered_bytes {api : ggml_api} (t : ggml_tensor) : buffer :=
  if buffer_is_host t then data t
  else firstn (N.to_nat (ggml_nbytes t)) (data t).

(** The byte footprint of a tensor that has to be copied lies within its
    bytes. *)
Definition copy_ok {api : ggml_api} (t : ggml_tensor) : Prop :=
  buffer_is_host t = false ->
  Z.of_N (ggml_nbytes t) <= Z.of_nat (List.length (data t)).

(** A tensor the Deliver phase handles without a fault: quantized (and
    skipped), or of a decodable type with every element inside the bytes. *)
Definition deliverable {api : ggml_api} (t : ggml_tensor) : Prop :=
  copy_ok t /\
  (ggml_is_quantized (type t) = true \/
   (decodable (type t) = true /\ nonneg (ne t) /\
    in_bounds t (Z.of_nat (List.length (delivered_bytes t))))).

(** Lines 136-142: the [callback_data] after the Transfer step. *)
Definition transfer {api : ggml_api} (growth : Z -> Z -> Z -> Z) (t : ggml_tensor)
    (cb : callback_data) : callback_data :=
  if buffer_is_host t then cb
  else CallbackData
         (Vector (capacity (resize growth (cb_data_data cb)
                                   (Z.of_N (ggml_nbytes t))))
                 (delivered_bytes t)).

(** The session after a Deliver that printed [csv]. *)
Definition delivered {api : ggml_api} (growth : Z -> Z -> Z -> Z) (t : ggml_tensor)
    (s : session) (csv : ofstream) : session :=
  {| out_csv := csv;
     g_model := g_model s;
     id := to_size_t (id s + 1);
     cb_data := transfer growth t (cb_data s) |}.

(** *** Sessions *)

(** No character of the string is the character 0. *)
Fixpoint no_nul (s : string) : bool :=
  match s with
  | EmptyString => true
  | String c r => negb (char_code c =? 0) && no_nul r
  end.

(** Whether the Ask phase accepts a node, in a session. *)
Definition accepts {api : ggml_api} (growth : Z -> Z -> Z -> Z) (s : session)
    (t : ggml_tensor) : bool :=
  match ggml_eval_layer_output growth t true s with
  | Ok (true, _) => true
  | _ => false
  end.

(** The number of nodes of a graph that the Ask phase accepts. *)
Definition count_accepted {api : ggml_api} (growth : Z -> Z -> Z -> Z) (s : session)
    (nodes : list ggml_tensor) : Z :=
  Z.of_nat (List.length (filter (accepts growth s) nodes)).

(** One invocation of the callback that returns. *)
Inductive callback_step {api : ggml_api} (growth : Z -> Z -> Z -> Z)
    : session -> session -> Prop :=
| callback_returns (t : ggml_tensor) (ask : bool) (s : session) (r : bool)
    (s' : session) :
    ggml_eval_layer_output growth t ask s = Ok (r, s') ->
    callback_step growth s s'.

(** Any number of them, one after the other. *)
Inductive callback_steps {api : ggml_api} (growth : Z -> Z -> Z -> Z)
    : session -> session -> Prop :=
| steps_none (s : session) : callback_steps growth s s
| steps_more (s1 s2 s3 : session) :
    callback_step growth s1 s2 -> callback_steps growth s2 s3 ->
    callback_steps growth s1 s3.

(** The session in which [main] starts the run, for a model of the
    architecture [arch]: the header written if the stream is open, the
    counter at 0, an empty scratch vector. *)
Definition run_session (env : environment) (arch : llm_arch) : session :=
  {| out_csv := init_csv_columns (Stream (out_file_opens env) []);
     g_model := Some arch;
     id := 0;
     cb_data := CallbackData (Vector 0 []) |}.

(** *** Concrete collaborators and inputs, to run the program on *)

(** The names ggml gives the five decodable types; a dequantizer whose
    [k]-th output is the float [k], so that a value tells which position of
    the dequantized array was read; tensors as large as their bytes. *)
Definition test_api : ggml_api :=
  {| ggml_type_name := fun type =>
       match type with
       | GGML_TYPE_F32 => "f32"
       | GGML_TYPE_F16 => "f16"
       | GGML_TYPE_I8 => "i8"
       | GGML_TYPE_I16 => "i16"
       | GGML_TYPE_I32 => "i32"
       | GGML_TYPE_Q _ => "q4_0"
       | GGML_TYPE_OTHER _ => "i64"
       end%string;
     ggml_op_desc := fun _ => "ADD"%string;
     ggml_nbytes := fun t => N.of_nat (List.length (data t));
     to_float := fun _ _ n => map float_of_int (range n) |}.

(** A vector that grows to exactly the size asked for. *)
Definition exact_growth (old_capacity old_size n : Z) : Z := n.

(** A session at the start of a run: the stream open and empty, the model
    of architecture [arch], the counter at 0, the scratch vector empty. *)
Definition a_session (arch : llm_arch) : session :=
  {| out_csv := Stream true [];
     g_model := Some arch;
     id := 0;
     cb_data := CallbackData (Vector 0 []) |}.

(** A host-addressable float32 tensor of one element, 1.0, with the name
    [s]. *)
Definition named (s : string) : ggml_tensor :=
  Tensor GGML_TYPE_F32 true (Dims 1 1 1 1) (Dims 4 4 4 4) [x00; x00; x80; x3f] s.

(** A host-addressable float32 tensor of shape (2,3,1,1), contiguous, with
    the values 1.0 to 6.0. *)
Definition f32_2x3 : ggml_tensor :=
  Tensor GGML_TYPE_F32 true (Dims 2 3 1 1) (Dims 4 8 24 24)
         [x00; x00; x80; x3f;  x00; x00; x00; x40;  x00; x00; x40; x40;
          x00; x00; x80; x40;  x00; x00; xa0; x40;  x00; x00; xc0; x40]
         "l_out-1".

(** The same tensor in device memory. *)
Definition f32_2x3_device : ggml_tensor :=
  Tensor GGML_TYPE_F32 false (Dims 2 3 1 1) (Dims 4 8 24 24) (data f32_2x3)
         "l_out-2".

(** A block-quantized tensor in the layout of ggml's q4_0 (blocks of 32
    elements in 18 bytes): 64 rows of 32 elements, 1152 bytes. *)
Definition q4_0_tensor : ggml_tensor :=
  Tensor (GGML_TYPE_Q 2) true (Dims 32 64 1 1) (Dims 18 18 1152 1152)
         (repeat x00 1152) "l_out-0".

(** One row of 32 such elements, 18 bytes. *)
Definition q4_0_row : ggml_tensor :=
  Tensor (GGML_TYPE_Q 2) true (Dims 32 1 1 1) (Dims 18 18 18 18)
         (repeat x00 18) "l_out-0".

(** A run: the command line is accepted, the model loads, the graph has an
    accepted float32 node, a rejected node, an accepted quantized node and a
    second accepted float32 node, and [llama_decode] returns 0. *)
Definition example_env (opens : bool) : environment :=
  {| params_parse_ok := true;
     out_file_opens := opens;
     init_model := Some (LLM_ARCH_OTHER 0);
     graph_nodes := [named "l_out-0"; named "attn_norm"; q4_0_row; f32_2x3];
     llama_decode_status := 0 |}.

(** *** Further vocabulary *)

(** The character [c] does not occur in the string. *)
Fixpoint lacks (c : ascii) (s : string) : bool :=
  match s with
  | EmptyString => true
  | String a r => negb (Ascii.eqb c a) && lacks c r
  end.

(** A type that is neither block-quantized nor one of the five the decoder
    converts. *)
Definition unsupported (type : ggml_type) : bool :=
  negb (ggml_is_quantized type) && negb (decodable type).

(** Row-major strides without padding for elements of [w] bytes. *)
Definition contiguous (w : Z) (ne nb : dims) : Prop :=
  d0 nb = w /\ d1 nb = w * d0 ne /\ d2 nb = w * d0 ne * d1 ne /\
  d3 nb = w * d0 ne * d1 ne * d2 ne.

(** The same run with another status of [llama_decode]. *)
Definition with_status (env : environment) (status : Z) : environment :=
  {| params_parse_ok := params_parse_ok env;
     out_file_opens := out_file_opens env;
     init_model := init_model env;
     graph_nodes := graph_nodes env;
     llama_decode_status := status |}.

(** The number of rows a graph is due: the elements of its accepted nodes
    that are not block-quantized. *)
Fixpoint expected_rows {api : ggml_api} (growth : Z -> Z -> Z -> Z) (s : session)
    (nodes : list ggml_tensor) : Z :=
  match nodes with
  | [] => 0
  | t :: rest =>
      (if accepts growth s t && negb (ggml_is_quantized (type t))
       then ggml_nelements t else 0)
      + expected_rows growth s rest
  end.

(** The collaborators [api] with another block-decode routine. *)
Definition with_to_float (api : ggml_api)
    (f : ggml_type -> buffer -> Z -> list float32) : ggml_api :=
  {| ggml_type_name := @ggml_type_name api;
     ggml_op_desc := @ggml_op_desc api;
     ggml_nbytes := @ggml_nbytes api;
     to_float := f |}.

(** The rows the Deliver of the node [t] inserts when the counter is [id]:
    none for a block-quantized tensor, else those the printer writes for the
    delivered bytes, as it writes them to an empty open stream. *)
Definition node_rows {api : ggml_api} (id : Z) (t : ggml_tensor)
    (rows : list csv_line) : Prop :=
  if ggml_is_quantized (type t) then rows = []
  else ggml_print_tensor_to_csv (Stream true []) (delivered_bytes t) id t
       = Ok (Stream true rows).

(** The nodes of a graph that the Ask phase accepts, in order. *)
Definition accepted_nodes {api : ggml_api} (growth : Z -> Z -> Z -> Z)
    (s : session) (nodes : list ggml_tensor) : list ggml_tensor :=
  filter (accepts growth s) nodes.

(* ================================================================= *)
(** * Properties *)

(** ** The result monad and the loops *)

Lemma bind_ok {A B : Type} (m : result A) (k : A -> result B) (b : B) :
  bind m k = Ok b -> exists a, m = Ok a /\ k a = Ok b.
Proof.
  destruct m as [a|f]; simpl; intros E; [eauto | discriminate].
Qed.

Lemma for_loop_fold {S : Type} (body : Z -> S -> result S) (n : nat) :
  forall (i : Z) (s : S),
    for_loop n i body s
    = fold_result body (map (fun k => i + Z.of_nat k) (seq 0 n)) s.
Proof.
  induction n as [|n IH]; intros i s; [reflexivity|].
  cbn [for_loop seq map fold_result]. rewrite Z.add_0_r.
  destruct (body i s) as [s'|f]; [|reflexivity]. cbn [bind].
  rewrite IH, <- seq_shift, map_map. f_equal.
  apply map_ext. intros k. lia.
Qed.

Lemma for_lt_fold {S : Type} (hi : Z) (body : Z -> S -> result S) (s : S) :
  for_lt hi body s = fold_result body (range hi) s.
Proof.
  unfold for_lt, range. rewrite for_loop_fold. f_equal.
Qed.

Lemma fold_result_app {A S : Type} (body : A -> S -> result S) (l1 l2 : list A) :
  forall s, fold_result body (l1 ++ l2) s
            = s' <- fold_result body l1 s ;; fold_result body l2 s'.
Proof.
  induction l1 as [|a l1 IH]; intros s; [reflexivity|].
  cbn [app fold_result]. destruct (body a s); cbn [bind]; auto.
Qed.

Lemma fold_result_ext_in {A S : Type} (f g : A -> S -> result S) (l : list A) :
  (forall a s, In a l -> f a s = g a s) ->
  forall s, fold_result f l s = fold_result g l s.
Proof.
  induction l as [|a l IH]; intros E s; [reflexivity|].
  cbn [fold_result]. rewrite (E a s (or_introl eq_refl)).
  destruct (g a s); cbn [bind]; [|reflexivity].
  apply IH. intros; apply E; right; assumption.
Qed.

Lemma fold_result_map {A B S : Type} (h : A -> B) (body : B -> S -> result S)
    (l : list A) :
  forall s, fold_result body (map h l) s = fold_result (fun a => body (h a)) l s.
Proof.
  induction l as [|a l IH]; intros s; [reflexivity|].
  cbn [map fold_result]. destruct (body (h a) s); cbn [bind]; auto.
Qed.

Lemma fold_result_flat_map {A B S : Type} (h : A -> list B)
    (body : B -> S -> result S) (l : list A) :
  forall s, fold_result body (flat_map h l) s
            = fold_result (fun a => fold_result body (h a)) l s.
Proof.
  induction l as [|a l IH]; intros s; [reflexivity|].
  cbn [flat_map fold_result]. rewrite fold_result_app.
  destruct (fold_result body (h a) s); cbn [bind]; auto.
Qed.

(** ** Ranges *)

Lemma range_nonpos (n : Z) : n <= 0 -> range n = [].
Proof.
  intros H. unfold range. replace (Z.to_nat n) with 0%nat by lia. reflexivity.
Qed.

Lemma length_range (n : Z) : List.length (range n) = Z.to_nat n.
Proof. unfold range. now rewrite length_map, length_seq. Qed.

Lemma in_range (n k : Z) : In k (range n) <-> 0 <= k < n.
Proof.
  unfold range. rewrite in_map_iff. split.
  - intros (j & <- & Hj). apply in_seq in Hj. lia.
  - intros H. exists (Z.to_nat k). split; [lia|]. apply in_seq. lia.
Qed.

Lemma seq_from (start len : nat) :
  seq start len = map (fun j => (start + j)%nat) (seq 0 len).
Proof.
  revert start. induction len as [|len IH]; intros start; [reflexivity|].
  cbn [seq map]. rewrite Nat.add_0_r. f_equal.
  rewrite (IH (S start)), (IH 1%nat), map_map.
  apply map_ext. intros j. lia.
Qed.

Lemma range_add (a b : Z) :
  0 <= a -> 0 <= b -> range (a + b) = range a ++ map (fun j => a + j) (range b).
Proof.
  intros Ha Hb. unfold range.
  rewrite Z2Nat.inj_add, seq_app, map_app by assumption.
  f_equal. cbn [Nat.add]. rewrite seq_from, !map_map.
  apply map_ext. intros j. lia.
Qed.

Lemma range_succ (n : Z) : 0 <= n -> range (n + 1) = range n ++ [n].
Proof.
  intros H. rewrite range_add by lia.
  change (range 1) with [0]. cbn [map]. now rewrite Z.add_0_r.
Qed.

(** Two nested ranges are one range: the outer index is the quotient and the
    inner one the remainder. *)
Lemma flat_map_range {A : Type} (f : Z -> Z -> A) (a b : Z) :
  0 <= a ->
  flat_map (fun i => map (fun j => f i j) (range a)) (range b)
  = map (fun k => f (k / a) (k mod a)) (range (a * b)).
Proof.
  intros Ha. destruct (Z.le_gt_cases b 0) as [Hb|Hb].
  { rewrite (range_nonpos b), (range_nonpos (a * b)) by nia. reflexivity. }
  rewrite <- (Z2Nat.id b) by lia.
  induction (Z.to_nat b) as [|n IH]; [now rewrite Z.mul_0_r|].
  rewrite Nat2Z.inj_succ, <- Z.add_1_r, range_succ by lia.
  rewrite flat_map_app, IH. cbn [flat_map]. rewrite app_nil_r.
  rewrite Z.mul_add_distr_l, Z.mul_1_r, range_add by nia.
  rewrite map_app, map_map. f_equal.
  apply map_ext_in. intros j Hj. apply in_range in Hj.
  f_equal.
  - rewrite (Z.mul_comm a), Z.div_add_l by lia.
    rewrite Z.div_small by lia. lia.
  - rewrite (Z.mul_comm a), Z.add_comm, Z.mod_add by lia.
    symmetry. apply Z.mod_small; lia.
Qed.

Lemma fold_result_nested {S : Type} (body : Z -> Z -> S -> result S) (a b : Z)
    (s : S) :
  0 <= a ->
  fold_result (fun i => fold_result (body i) (range a)) (range b) s
  = fold_result (fun k => body (k / a) (k mod a)) (range (a * b)) s.
Proof.
  intros Ha.
  rewrite <- (fold_result_map (fun k => (k / a, k mod a))
                (fun p => body (fst p) (snd p))).
  rewrite <- (flat_map_range (fun i j => (i, j))) by assumption.
  rewrite fold_result_flat_map.
  apply fold_result_ext_in. intros i s' _.
  now rewrite fold_result_map.
Qed.

Lemma mod_mul_digits (k a b : Z) :
  0 < a -> 0 < b ->
  (k mod (a * b)) mod a = k mod a /\ (k mod (a * b)) / a = (k / a) mod b.
Proof.
  intros Ha Hb. rewrite Z.rem_mul_r by lia.
  pose proof (Z.mod_pos_bound k a Ha).
  pose proof (Z.mod_pos_bound (k / a) b Hb).
  split.
  - rewrite (Z.mul_comm a), Z.mod_add by lia. apply Z.mod_mod; lia.
  - rewrite (Z.mul_comm a), Z.div_add by lia.
    rewrite Z.div_small by lia. lia.
Qed.

(** The loop nest of the printer visits the multi-indices in the order of
    [nth_index]: [i0] fastest, [i3] slowest, each once. *)
Lemma loop_nest_fold {S : Type} (ne : dims) (body : Z -> Z -> Z -> Z -> S -> result S)
    (s : S) :
  nonneg ne ->
  for_lt (dim ne 3) (fun i3 =>
    for_lt (dim ne 2) (fun i2 =>
      for_lt (dim ne 1) (fun i1 =>
        for_lt (dim ne 0) (fun i0 => body i3 i2 i1 i0)))) s
  = fold_result
      (fun k => body (d3 (nth_index ne k)) (d2 (nth_index ne k))
                     (d1 (nth_index ne k)) (d0 (nth_index ne k)))
      (range (d0 ne * d1 ne * d2 ne * d3 ne)) s.
Proof.
  destruct ne as [e0 e1 e2 e3]. unfold nonneg, nth_index. cbn [dim d0 d1 d2 d3].
  intros (H0 & H1 & H2 & H3).
  rewrite for_lt_fold.
  erewrite fold_result_ext_in.
  2:{ intros i3 s3 _. rewrite for_lt_fold.
      erewrite fold_result_ext_in.
      2:{ intros i2 s2 _. rewrite for_lt_fold.
          erewrite fold_result_ext_in.
          2:{ intros i1 s1 _. rewrite for_lt_fold. reflexivity. }
          rewrite (fold_result_nested (fun i1 i0 => body i3 i2 i1 i0)) by lia.
          reflexivity. }
      rewrite (fold_result_nested
                 (fun i2 k => body i3 i2 (k / e0) (k mod e0))) by nia.
      reflexivity. }
  rewrite (fold_result_nested
             (fun i3 k => body i3 (k / (e0 * e1)) (k mod (e0 * e1) / e0)
                               ((k mod (e0 * e1)) mod e0))) by nia.
  apply fold_result_ext_in. intros k s' Hk. apply in_range in Hk.
  assert (0 < e0 /\ 0 < e1 /\ 0 < e2) as (P0 & P1 & P2) by nia.
  destruct (mod_mul_digits k (e0 * e1) e2) as [E1 E2]; [nia|lia|].
  destruct (mod_mul_digits k e0 e1) as [E3 E4]; [lia|lia|].
  cbv beta. rewrite E1, E2, E3, E4. reflexivity.
Qed.

(** ** Memory reads *)

Lemma load_byte_some (data : buffer) (i : Z) :
  0 <= i < Z.of_nat (List.length data) -> exists b, load_byte data i = Some b.
Proof.
  intros H. unfold load_byte.
  destruct (Z.ltb_spec i 0) as [?|_]; [lia|].
  destruct (nth_error data (Z.to_nat i)) as [b|] eqn:E; [cbn; eauto|].
  apply nth_error_None in E. lia.
Qed.

Lemma load_le_some (n : nat) (data : buffer) :
  forall i, 0 <= i -> i + Z.of_nat n <= Z.of_nat (List.length data) ->
            exists v, load_le n data i = Some v.
Proof.
  induction n as [|n IH]; intros i Hi Hn; cbn [load_le]; [eauto|].
  destruct (load_byte_some data i) as [b ->]; [lia|].
  destruct (IH (i + 1)) as [r ->]; [lia|lia|]. eauto.
Qed.

Lemma to_size_t_small (x : Z) : 0 <= x < 2 ^ 64 -> to_size_t x = x.
Proof. intros H. unfold to_size_t. apply Z.mod_small. exact H. Qed.

Lemma to_size_t_range (x : Z) : 0 <= to_size_t x < 2 ^ 64.
Proof. unfold to_size_t. apply Z.mod_pos_bound. lia. Qed.

(** Line 68 computes the offset of the spec whenever that fits a [size_t]. *)
Lemma offset_of_spec (nb idx : dims) :
  0 <= spec_offset nb idx < 2 ^ 64 -> offset_of nb idx = spec_offset nb idx.
Proof.
  intros H. unfold offset_of, elem_offset. cbn [dim].
  apply to_size_t_small. exact H.
Qed.

(** The decoder converts an element of one of its five types that lies
    inside the buffer. *)
Lemma decode_element_total (type : ggml_type) (data : buffer) (i : Z) :
  decodable type = true ->
  0 <= i -> i + elem_size type <= Z.of_nat (List.length data) ->
  exists v, decode_element type data None i = Ok v.
Proof.
  intros D Hi Hn.
  destruct type; try discriminate D; cbn [decode_element elem_size] in *.
  - destruct (load_le_some 4 data i) as [v ->]; [lia|lia|]. cbn. eauto.
  - destruct (load_le_some 2 data i) as [v ->]; [lia|lia|]. cbn. eauto.
  - destruct (load_le_some 1 data i) as [v ->]; [lia|lia|]. cbn. eauto.
  - destruct (load_le_some 2 data i) as [v ->]; [lia|lia|]. cbn. eauto.
  - destruct (load_le_some 4 data i) as [v ->]; [lia|lia|]. cbn. eauto.
Qed.

Lemma nth_index_below (ne : dims) (k : Z) :
  nonneg ne -> 0 <= k < d0 ne * d1 ne * d2 ne * d3 ne ->
  below (nth_index ne k) ne.
Proof.
  destruct ne as [e0 e1 e2 e3]. unfold nonneg, below, nth_index.
  cbn [d0 d1 d2 d3]. intros (H0 & H1 & H2 & H3) Hk.
  assert (0 < e0 /\ 0 < e1 /\ 0 < e2 /\ 0 < e3) as (P0 & P1 & P2 & P3) by nia.
  repeat split; try (apply Z.mod_pos_bound; lia).
  - apply Z.div_pos; nia.
  - apply Z.div_lt_upper_bound; nia.
Qed.

(** ** Streams *)

Lemma put_lines_open (csv : ofstream) (ls : list csv_line) :
  is_open csv = true -> put_lines csv ls = Stream true (lines csv ++ ls).
Proof.
  revert csv. induction ls as [|l ls IH]; intros [o ll] H; cbn in H; subst o.
  - cbn. now rewrite app_nil_r.
  - cbn [put_lines fold_left]. unfold put_line at 2. cbn [is_open lines].
    change (put_lines (Stream true (ll ++ [l])) ls = Stream true (ll ++ l :: ls)).
    rewrite IH by reflexivity. cbn [lines]. now rewrite <- app_assoc.
Qed.

Lemma put_lines_closed (csv : ofstream) (ls : list csv_line) :
  is_open csv = false -> put_lines csv ls = csv.
Proof.
  induction ls as [|l ls IH]; intros H; [reflexivity|].
  cbn [put_lines fold_left]. unfold put_line at 2. rewrite H. apply IH, H.
Qed.

(** ** Results of a list *)

Lemma map_result_length {A B : Type} (f : A -> result B) (l : list A) :
  forall bs, map_result f l = Ok bs -> List.length bs = List.length l.
Proof.
  induction l as [|a l IH]; cbn [map_result]; intros bs E.
  - injection E as <-. reflexivity.
  - apply bind_ok in E as (b & _ & E). apply bind_ok in E as (bs' & E' & E).
    injection E as <-. cbn. f_equal. now apply IH.
Qed.

Lemma map_result_total {A B : Type} (f : A -> result B) (l : list A) :
  (forall a, In a l -> exists b, f a = Ok b) ->
  exists bs, map_result f l = Ok bs.
Proof.
  induction l as [|a l IH]; intros H; cbn [map_result]; [eauto|].
  destruct (H a (or_introl eq_refl)) as [b ->].
  destruct IH as [bs ->]; [intros; apply H; now right|].
  cbn. eauto.
Qed.

(** ** The printer *)

Section Printer.

Context {api : ggml_api}.

Lemma ggml_nelements_nonneg (t : ggml_tensor) :
  nonneg (ne t) -> 0 <= ggml_nelements t.
Proof.
  unfold ggml_nelements. intros (? & ? & ? & ?).
  repeat apply Z.mul_nonneg_nonneg; assumption.
Qed.

(** With no negative extent the allocation of line 59 succeeds. *)
Lemma dequantize_nonneg (t : ggml_tensor) (data : buffer) :
  nonneg (ne t) -> dequantize t data = Ok (unquantized_of t data).
Proof.
  intros N. apply ggml_nelements_nonneg in N.
  unfold dequantize, unquantized_of.
  destruct (ggml_is_quantized (type t)); [|reflexivity].
  destruct (Z.ltb_spec (ggml_nelements t) 0); [lia|reflexivity].
Qed.

Lemma fold_print_element (data : buffer) (id : Z) (t : ggml_tensor)
    (unq : option (list float32)) (ks : list Z) :
  forall csv,
    fold_result
      (fun k => print_element data id t unq
                  (d3 (nth_index (ne t) k)) (d2 (nth_index (ne t) k))
                  (d1 (nth_index (ne t) k)) (d0 (nth_index (ne t) k))) ks csv
    = vs <- map_result
              (fun k => decode_element (type t) data unq
                          (offset_of (nb t) (nth_index (ne t) k))) ks ;;
      Ok (put_lines csv
            (map (fun kv => row_of id t (nth_index (ne t) (fst kv)) (snd kv))
                 (combine ks vs))).
Proof.
  induction ks as [|k ks IH]; intros csv; [reflexivity|].
  cbn [fold_result map_result]. unfold print_element at 1.
  fold (offset_of (nb t) (nth_index (ne t) k)).
  destruct (decode_element _ _ _ _) as [v|f]; [|reflexivity].
  cbn [bind]. rewrite IH.
  destruct (map_result _ ks) as [vs|f]; [|reflexivity].
  reflexivity.
Qed.

(** The printer decodes the elements in the order of the walk and, when
    none faults, writes their rows in that order. *)
Lemma print_spec (csv : ofstream) (data : buffer) (id : Z) (t : ggml_tensor) :
  nonneg (ne t) ->
  ggml_print_tensor_to_csv csv data id t
  = vs <- map_result (value_of t data) (range (ggml_nelements t)) ;;
    Ok (put_lines csv (rows_of id t vs)).
Proof.
  intros H. unfold ggml_print_tensor_to_csv.
  rewrite (dequantize_nonneg t data H). cbn [bind].
  rewrite (loop_nest_fold (ne t)) by assumption.
  apply fold_print_element.
Qed.

Lemma value_of_total (t : ggml_tensor) (data : buffer) (k : Z) :
  decodable (type t) = true -> nonneg (ne t) ->
  in_bounds t (Z.of_nat (List.length data)) ->
  0 <= k < ggml_nelements t ->
  exists v, value_of t data k = Ok v.
Proof.
  intros D N B Hk. unfold value_of, unquantized_of.
  assert (ggml_is_quantized (type t) = false) as ->
    by (destruct (type t); try discriminate D; reflexivity).
  destruct (B (nth_index (ne t) k)) as [Ho Hl].
  { apply nth_index_below; assumption. }
  rewrite offset_of_spec by assumption.
  apply decode_element_total; [assumption|lia|assumption].
Qed.

(** On a tensor of a decodable type whose elements lie inside [data] the
    printer returns, having written one row per element. *)
Lemma print_total (csv : ofstream) (data : buffer) (id : Z) (t : ggml_tensor) :
  decodable (type t) = true -> nonneg (ne t) ->
  in_bounds t (Z.of_nat (List.length data)) ->
  exists vs,
    List.length vs = Z.to_nat (ggml_nelements t) /\
    map_result (value_of t data) (range (ggml_nelements t)) = Ok vs /\
    ggml_print_tensor_to_csv csv data id t = Ok (put_lines csv (rows_of id t vs)).
Proof.
  intros D N B.
  destruct (map_result_total (value_of t data) (range (ggml_nelements t)))
    as [vs E].
  { intros k Hk. apply in_range in Hk. now apply value_of_total. }
  exists vs. split; [|split; [exact E|]].
  - rewrite (map_result_length _ _ _ E). apply length_range.
  - rewrite print_spec, E by assumption. reflexivity.
Qed.

Lemma length_rows_of (id : Z) (t : ggml_tensor) (vs : list float32) :
  List.length vs = Z.to_nat (ggml_nelements t) ->
  List.length (rows_of id t vs) = Z.to_nat (ggml_nelements t).
Proof.
  intros H. unfold rows_of.
  rewrite length_map, length_combine, length_range, H. apply Nat.min_id.
Qed.

(** Whatever the type, a call of the printer that returns has appended
    [e0*e1*e2*e3] rows to an open stream. *)
Lemma print_row_count (csv csv' : ofstream) (bytes : buffer) (id : Z)
    (t : ggml_tensor) :
  nonneg (ne t) -> is_open csv = true ->
  ggml_print_tensor_to_csv csv bytes id t = Ok csv' ->
  exists rows,
    lines csv' = lines csv ++ rows /\
    Z.of_nat (List.length rows) = d0 (ne t) * d1 (ne t) * d2 (ne t) * d3 (ne t).
Proof.
  intros N O E. rewrite print_spec in E by assumption.
  apply bind_ok in E as (vs & Ev & E). injection E as <-.
  exists (rows_of id t vs). split; [now rewrite put_lines_open|].
  apply map_result_length in Ev. rewrite length_range in Ev.
  rewrite length_rows_of by assumption. fold (ggml_nelements t).
  assert (0 <= ggml_nelements t); [|lia].
  unfold ggml_nelements. destruct N as (? & ? & ? & ?).
  repeat apply Z.mul_nonneg_nonneg; assumption.
Qed.

(** A tensor with an element and a type that is neither quantized nor one of
    the five decodable ones ends the process. *)
Lemma print_unsupported (csv : ofstream) (bytes : buffer) (id : Z)
    (t : ggml_tensor) (tag : N) :
  type t = GGML_TYPE_OTHER tag -> nonneg (ne t) -> 0 < ggml_nelements t ->
  ggml_print_tensor_to_csv csv bytes id t = Fault (fatal_error "fatal error").
Proof.
  intros T N P. rewrite print_spec by assumption.
  replace (ggml_nelements t) with (1 + (ggml_nelements t - 1)) by lia.
  rewrite range_add by lia. change (range 1) with [0].
  cbn [app map_result]. unfold value_of at 1, unquantized_of.
  rewrite T. reflexivity.
Qed.

End Printer.

(** ** The scratch vector *)

Lemma resize_capacity (growth : Z -> Z -> Z -> Z) (v : vector) (n : Z) :
  capacity v <= capacity (resize growth v n).
Proof.
  unfold resize.
  destruct (n <=? size v); [cbn; lia|].
  destruct (Z.leb_spec n (capacity v)); cbn; lia.
Qed.

Lemma resize_size (growth : Z -> Z -> Z -> Z) (v : vector) (n : Z) :
  0 <= n -> size (resize growth v n) = n.
Proof.
  intros Hn. unfold resize, size.
  destruct (Z.leb_spec n (Z.of_nat (List.length (elems v)))) as [H|H].
  - cbn [elems]. rewrite length_firstn. lia.
  - destruct (n <=? capacity v); cbn [elems];
      rewrite length_app, repeat_length; lia.
Qed.

Lemma resize_ok (growth : Z -> Z -> Z -> Z) (v : vector) (n : Z) :
  0 <= n -> vector_ok v -> vector_ok (resize growth v n).
Proof.
  intros Hn Hv. unfold vector_ok. rewrite resize_size by assumption.
  unfold vector_ok in Hv. unfold resize.
  destruct (Z.leb_spec n (size v)); [cbn; lia|].
  destruct (Z.leb_spec n (capacity v)); cbn; lia.
Qed.

Lemma resize_room (growth : Z -> Z -> Z -> Z) (v : vector) (n : Z) :
  vector_ok v -> n <= capacity (resize growth v n).
Proof.
  unfold vector_ok, resize. intros Hv.
  destruct (Z.leb_spec n (size v)); [cbn; lia|].
  destruct (Z.leb_spec n (capacity v)); cbn; lia.
Qed.

(** ** The callback *)

Section Callback.

Context {api : ggml_api} (growth : Z -> Z -> Z -> Z).

Lemma tensor_get_inv (t : ggml_tensor) (n : N) (bytes : buffer) :
  ggml_backend_tensor_get t 0 (Z.of_N n) = Ok bytes ->
  Z.of_N n <= Z.of_nat (List.length (data t)) /\
  bytes = firstn (N.to_nat n) (data t).
Proof.
  unfold ggml_backend_tensor_get.
  destruct (Z.leb_spec (0 + Z.of_N n) (Z.of_nat (List.length (data t))))
    as [H|H]; cbn.
  - replace (0 <=? Z.of_N n) with true by (symmetry; apply Z.leb_le; lia).
    cbn. intros E. injection E as <-. split; [lia|].
    f_equal. lia.
  - rewrite andb_false_r. discriminate.
Qed.

Lemma tensor_get_ok (t : ggml_tensor) :
  copy_ok t -> buffer_is_host t = false ->
  ggml_backend_tensor_get t 0 (Z.of_N (ggml_nbytes t)) = Ok (delivered_bytes t).
Proof.
  intros C H. specialize (C H). unfold ggml_backend_tensor_get, delivered_bytes.
  rewrite H.
  replace (0 <=? Z.of_N (ggml_nbytes t)) with true
    by (symmetry; apply Z.leb_le; lia).
  replace (0 + Z.of_N (ggml_nbytes t) <=? Z.of_nat (List.length (data t)))
    with true by (symmetry; apply Z.leb_le; lia).
  cbn. do 2 f_equal. lia.
Qed.

(** The Deliver phase, for a tensor whose copy (if any) is in range: the
    printer runs on the delivered bytes unless the type is quantized, and
    the counter advances. *)
Lemma deliver_eq (t : ggml_tensor) (s : session) :
  copy_ok t ->
  ggml_eval_layer_output growth t false s
  = csv <- (if ggml_is_quantized (type t) then Ok (out_csv s)
            else ggml_print_tensor_to_csv (out_csv s) (delivered_bytes t)
                   (id s) t) ;;
    Ok (true, delivered growth t s csv).
Proof.
  intros C. unfold ggml_eval_layer_output, delivered, transfer.
  destruct (buffer_is_host t) eqn:H; cbn [negb bind].
  - unfold delivered_bytes. rewrite H.
    destruct (ggml_is_quantized (type t)); reflexivity.
  - rewrite (tensor_get_ok t C H). cbn [bind cb_data_data elems].
    destruct (ggml_is_quantized (type t)); reflexivity.
Qed.

Lemma deliver_copy_ok (t : ggml_tensor) (s : session) (r : bool * session) :
  ggml_eval_layer_output growth t false s = Ok r -> copy_ok t.
Proof.
  unfold ggml_eval_layer_output, copy_ok. intros E H. rewrite H in E.
  cbn [negb] in E. apply bind_ok in E as (cb & E & _).
  apply bind_ok in E as (bytes & E & _).
  now apply tensor_get_inv in E.
Qed.

(** What a Deliver that returns has done. *)
Lemma deliver_inv (t : ggml_tensor) (s : session) (r : bool) (s' : session) :
  ggml_eval_layer_output growth t false s = Ok (r, s') ->
  r = true /\
  g_model s' = g_model s /\
  id s' = to_size_t (id s + 1) /\
  cb_data s' = transfer growth t (cb_data s) /\
  (if ggml_is_quantized (type t) then Ok (out_csv s)
   else ggml_print_tensor_to_csv (out_csv s) (delivered_bytes t) (id s) t)
  = Ok (out_csv s').
Proof.
  intros E. pose proof (deliver_copy_ok _ _ _ E) as C.
  rewrite (deliver_eq t s C) in E.
  apply bind_ok in E as (csv & E1 & E2). injection E2 as <- <-.
  cbn. repeat split; assumption.
Qed.

(** The Ask phase leaves the session as it is. *)
Lemma ask_state (t : ggml_tensor) (s : session) (r : bool) (s' : session) :
  ggml_eval_layer_output growth t true s = Ok (r, s') -> s' = s.
Proof.
  unfold ggml_eval_layer_output.
  destruct (strncmp (name t) "l_out" 5 =? 0).
  - intros E. now injection E as _ <-.
  - destruct (g_model s) as [arch|]; cbn; [|discriminate].
    destruct (_ && _); intros E; now injection E as _ <-.
Qed.

(** Its answer depends on the session through [g_model] alone. *)
Lemma ask_g_model (t : ggml_tensor) (s1 s2 : session) :
  g_model s1 = g_model s2 ->
  option_map fst (match ggml_eval_layer_output growth t true s1 with Ok r => Some r | _ => None end)
  = option_map fst (match ggml_eval_layer_output growth t true s2 with Ok r => Some r | _ => None end).
Proof.
  unfold ggml_eval_layer_output. intros <-.
  destruct (strncmp (name t) "l_out" 5 =? 0); [reflexivity|].
  destruct (g_model s1); cbn; [|reflexivity].
  destruct (_ && _); reflexivity.
Qed.

Lemma accepts_g_model (t : ggml_tensor) (s1 s2 : session) :
  g_model s1 = g_model s2 -> accepts growth s1 t = accepts growth s2 t.
Proof.
  intros H. apply (ask_g_model t) in H. unfold accepts.
  destruct (ggml_eval_layer_output growth t true s1) as [[[] ?]|], (ggml_eval_layer_output growth t true s2) as [[[] ?]|];
    cbn in H; congruence.
Qed.

End Callback.

(** ** The Ask phase *)

Lemma char_code_inj (c1 c2 : ascii) : char_code c1 = char_code c2 -> c1 = c2.
Proof.
  unfold char_code. intros H. apply N2Z.inj in H.
  rewrite <- (ascii_N_embedding c1), <- (ascii_N_embedding c2). now f_equal.
Qed.

(** [strncmp] against a prefix of that length is 0 exactly on the strings
    that start with it. *)
Lemma strncmp_prefix (p : string) :
  no_nul p = true ->
  forall s, (strncmp s p (String.length p) =? 0) = String.prefix p s.
Proof.
  induction p as [|c p IH]; intros N s; [now destruct s|].
  cbn [no_nul] in N. apply andb_true_iff in N as [Nc Np].
  apply negb_true_iff in Nc. apply Z.eqb_neq in Nc.
  destruct s as [|c1 r1]; cbn [String.length strncmp String.prefix].
  - apply Z.eqb_neq. lia.
  - destruct (Z.eqb_spec (char_code c1) (char_code c)) as [E|E].
    + apply char_code_inj in E. subst c1.
      destruct (Z.eqb_spec (char_code c) 0) as [|_]; [contradiction|].
      destruct (ascii_dec c c) as [_|]; [|contradiction].
      now apply IH.
    + destruct (ascii_dec c c1) as [->|_]; [contradiction|].
      apply Z.eqb_neq. lia.
Qed.

Section Ask.

Context {api : ggml_api} (growth : Z -> Z -> Z -> Z).

(** The decision of the Ask phase, in terms of prefixes. *)
Lemma ask_spec (t : ggml_tensor) (s : session) (arch : llm_arch) :
  g_model s = Some arch ->
  ggml_eval_layer_output growth t true s
  = Ok (String.prefix "l_out" (name t)
        || llm_arch_eqb arch LLM_ARCH_WAVTOKENIZER_DEC
           && (String.prefix "posnet_out" (name t)
               || negb (String.prefix "convnext_out" (name t))), s).
Proof.
  intros G. unfold ggml_eval_layer_output. rewrite G.
  pose proof (strncmp_prefix "l_out" eq_refl (name t)) as P1.
  pose proof (strncmp_prefix "posnet_out" eq_refl (name t)) as P2.
  pose proof (strncmp_prefix "convnext_out" eq_refl (name t)) as P3.
  cbn [String.length] in P1, P2, P3. rewrite P1, P2, P3.
  destruct (String.prefix "l_out" (name t)); [reflexivity|].
  cbn [of_option bind orb].
  destruct (_ && _); reflexivity.
Qed.

(** A name with the prefix [l_out] is accepted whatever the architecture,
    also before [g_model] is set. *)
Lemma ask_l_out (t : ggml_tensor) (s : session) :
  String.prefix "l_out" (name t) = true ->
  ggml_eval_layer_output growth t true s = Ok (true, s).
Proof.
  intros P. unfold ggml_eval_layer_output.
  pose proof (strncmp_prefix "l_out" eq_refl (name t)) as P1.
  cbn [String.length] in P1. now rewrite P1, P.
Qed.

(** For every architecture but WAVTOKENIZER_DEC the Ask phase accepts the
    names with the prefix [l_out] and no other. *)
Lemma ask_other_arch (t : ggml_tensor) (s : session) (tag : N) :
  g_model s = Some (LLM_ARCH_OTHER tag) ->
  ggml_eval_layer_output growth t true s
  = Ok (String.prefix "l_out" (name t), s).
Proof.
  intros G. rewrite (ask_spec t s _ G). cbn. now rewrite orb_false_r.
Qed.

(** For WAVTOKENIZER_DEC it accepts every name that does not start with
    [convnext_out], and of those that do, none (no name starts with both
    [l_out] and [convnext_out]). *)
Lemma ask_wavtokenizer (t : ggml_tensor) (s : session) :
  g_model s = Some LLM_ARCH_WAVTOKENIZER_DEC ->
  ggml_eval_layer_output growth t true s
  = Ok (negb (String.prefix "convnext_out" (name t)), s).
Proof.
  intros G. rewrite (ask_spec t s _ G). cbn [llm_arch_eqb andb].
  do 2 f_equal.
  destruct (name t) as [|c r]; [reflexivity|].
  cbn [String.prefix].
  destruct (ascii_dec "c" c) as [<-|_].
  - destruct (ascii_dec "l" "c"); [discriminate|].
    destruct (ascii_dec "p" "c"); [discriminate|]. reflexivity.
  - cbn [negb]. now rewrite !orb_true_r.
Qed.

(** C1, on the code: with the architecture WAVTOKENIZER_DEC the Ask phase
    accepts the name "attn_norm", which has none of the three prefixes, and
    rejects the name "convnext_out-0", which has one of them: the third
    [strncmp] of the source is not compared with 0.  The name "l_out-3" is
    accepted, and "attn_norm" is rejected for another architecture. *)
Theorem ask_convnext_slip :
  ggml_eval_layer_output growth (named "attn_norm") true
    (a_session LLM_ARCH_WAVTOKENIZER_DEC)
  = Ok (true, a_session LLM_ARCH_WAVTOKENIZER_DEC) /\
  ggml_eval_layer_output growth (named "convnext_out-0") true
    (a_session LLM_ARCH_WAVTOKENIZER_DEC)
  = Ok (false, a_session LLM_ARCH_WAVTOKENIZER_DEC) /\
  ggml_eval_layer_output growth (named "l_out-3") true
    (a_session LLM_ARCH_WAVTOKENIZER_DEC)
  = Ok (true, a_session LLM_ARCH_WAVTOKENIZER_DEC) /\
  ggml_eval_layer_output growth (named "attn_norm") true
    (a_session (LLM_ARCH_OTHER 0))
  = Ok (false, a_session (LLM_ARCH_OTHER 0)).
Proof. repeat split. Qed.

End Ask.

(** ** The quantized branch of the printer *)

(** For a quantized tensor the printer reads the dequantized array at the
    position [i] of line 68, which is a byte offset. *)
Lemma quantized_value_of {api : ggml_api} (t : ggml_tensor) (data : buffer)
    (k : Z) :
  ggml_is_quantized (type t) = true ->
  value_of t data k
  = of_option (nth_error (to_float (type t) data (ggml_nelements t))
                 (Z.to_nat (offset_of (nb t) (nth_index (ne t) k)))).
Proof.
  intros Q. unfold value_of, unquantized_of. rewrite Q.
  cbn [decode_element].
  destruct (Z.ltb_spec (offset_of (nb t) (nth_index (ne t) k)) 0) as [H|_];
    [|reflexivity].
  pose proof (to_size_t_range
                (d3 (nth_index (ne t) k) * dim (nb t) 3
                 + d2 (nth_index (ne t) k) * dim (nb t) 2
                 + d1 (nth_index (ne t) k) * dim (nb t) 1
                 + d0 (nth_index (ne t) k) * dim (nb t) 0)).
  unfold offset_of, elem_offset in H. lia.
Qed.

(** That branch, which no call in the program reaches (the Deliver phase
    keeps quantized tensors away from the printer), on two inputs: for 64
    rows of 32 q4_0 elements the second row written, of the element at
    position 1, carries the value at position 18 of the dequantized array;
    for a single row of 32 elements the walk reads outside the 32
    dequantized floats. *)
Lemma quantized_index_is_byte_offset :
  element_index (ne q4_0_tensor) (Dims 1 0 0 0) = 1 /\
  offset_of (nb q4_0_tensor) (Dims 1 0 0 0) = 18 /\
  (exists csv,
     ggml_print_tensor_to_csv (api := test_api) (Stream true [])
       (data q4_0_tensor) 0 q4_0_tensor = Ok csv /\
     nth_error (lines csv) 1
     = Some (row_of (api := test_api) 0 q4_0_tensor (Dims 1 0 0 0)
               (float_of_int 18))) /\
  ggml_print_tensor_to_csv (api := test_api) (Stream true [])
    (data q4_0_row) 0 q4_0_row = Fault undefined_behaviour.
Proof.
  split; [reflexivity|]. split; [reflexivity|]. split.
  - eexists. split; [vm_compute; reflexivity|]. reflexivity.
  - vm_compute. reflexivity.
Qed.

(** ** The scheduler *)

Section Scheduler.

Context {api : ggml_api} (growth : Z -> Z -> Z -> Z).

Lemma accepts_true (t : ggml_tensor) (s : session) :
  accepts growth s t = true ->
  ggml_eval_layer_output growth t true s = Ok (true, s).
Proof.
  unfold accepts.
  destruct (ggml_eval_layer_output growth t true s) as [[[] s']|] eqn:E;
    try discriminate.
  intros _. now rewrite (ask_state growth _ _ _ _ E).
Qed.

(** The scheduler on one node: a rejected node is passed over, an accepted
    one is delivered and the walk goes on. *)
Lemma sched_eval_cons_inv (t : ggml_tensor) (rest : list ggml_tensor)
    (s s' : session) :
  sched_eval growth (t :: rest) s = Ok s' ->
  (accepts growth s t = false /\ sched_eval growth rest s = Ok s') \/
  (accepts growth s t = true /\
   exists s1, ggml_eval_layer_output growth t false s = Ok (true, s1) /\
              sched_eval growth rest s1 = Ok s').
Proof.
  cbn [sched_eval]. intros E.
  apply bind_ok in E as ([r s0] & Ea & E). cbn [fst snd] in E.
  pose proof (ask_state growth _ _ _ _ Ea) as ->.
  unfold accepts. rewrite Ea. destruct r.
  - right. split; [reflexivity|].
    apply bind_ok in E as ([r1 s1] & Ed & E). cbn [fst snd] in E.
    destruct (deliver_inv growth _ _ _ _ Ed) as (-> & _).
    exists s1. split; assumption.
  - left. split; [reflexivity|assumption].
Qed.

Lemma sched_eval_nil_inv (s s' : session) :
  sched_eval growth [] s = Ok s' -> s' = s.
Proof. cbn. intros E. now injection E. Qed.

(** A run of the scheduler is a sequence of invocations of the callback. *)
Lemma sched_eval_steps (nodes : list ggml_tensor) :
  forall s s', sched_eval growth nodes s = Ok s' -> callback_steps growth s s'.
Proof.
  induction nodes as [|t rest IH]; intros s s' E.
  - apply sched_eval_nil_inv in E as ->. constructor.
  - apply sched_eval_cons_inv in E as [[A E]|[A (s1 & Ed & E)]].
    + now apply IH.
    + eapply steps_more; [|apply IH, E].
      econstructor. exact Ed.
Qed.

(** The callback never changes [g_model]. *)
Lemma callback_step_g_model (s s' : session) :
  callback_step growth s s' -> g_model s' = g_model s.
Proof.
  intros S. destruct S as [t [] s0 r s0' E].
  - now rewrite (ask_state growth _ _ _ _ E).
  - now destruct (deliver_inv growth _ _ _ _ E) as (_ & G & _).
Qed.

Lemma to_size_t_succ_add (a n : Z) :
  to_size_t (to_size_t (a + 1) + n) = to_size_t (a + (1 + n)).
Proof.
  unfold to_size_t. rewrite Z.add_mod_idemp_l by lia. f_equal. lia.
Qed.

Lemma count_accepted_g_model (nodes : list ggml_tensor) (s1 s2 : session) :
  g_model s1 = g_model s2 ->
  count_accepted growth s1 nodes = count_accepted growth s2 nodes.
Proof.
  intros G. unfold count_accepted. do 2 f_equal.
  apply filter_ext. intros t. now apply accepts_g_model.
Qed.

Lemma count_accepted_cons (t : ggml_tensor) (rest : list ggml_tensor)
    (s : session) :
  count_accepted growth s (t :: rest)
  = (if accepts growth s t then 1 else 0) + count_accepted growth s rest.
Proof.
  unfold count_accepted. cbn [filter].
  destruct (accepts growth s t); cbn [List.length]; lia.
Qed.

(** After a run the counter has advanced by the number of accepted nodes. *)
Lemma sched_eval_id (nodes : list ggml_tensor) :
  forall s s', 0 <= id s < 2 ^ 64 -> sched_eval growth nodes s = Ok s' ->
    id s' = to_size_t (id s + count_accepted growth s nodes).
Proof.
  induction nodes as [|t rest IH]; intros s s' R E.
  - apply sched_eval_nil_inv in E as ->. unfold count_accepted. cbn.
    rewrite Z.add_0_r. symmetry. now apply to_size_t_small.
  - rewrite count_accepted_cons.
    apply sched_eval_cons_inv in E as [[A E]|[A (s1 & Ed & E)]]; rewrite A.
    + now apply IH.
    + destruct (deliver_inv growth _ _ _ _ Ed) as (_ & G & I & _).
      rewrite (IH _ _ (eq_ind_r (fun x => 0 <= x < 2 ^ 64)
                         (to_size_t_range _) I) E).
      rewrite I, (count_accepted_g_model rest s1 s G).
      apply to_size_t_succ_add.
Qed.

End Scheduler.

(** ** The sequence counter *)

(** C3 fails as stated: the Deliver of a block-quantized tensor serializes no
    row, and the counter advances all the same. *)
Lemma counter_advances_without_rows :
  exists s',
    ggml_eval_layer_output (api := test_api) exact_growth q4_0_row false
      (a_session (LLM_ARCH_OTHER 0)) = Ok (true, s') /\
    out_csv s' = out_csv (a_session (LLM_ARCH_OTHER 0)) /\
    id (a_session (LLM_ARCH_OTHER 0)) = 0 /\ id s' = 1.
Proof. eexists. repeat split. Qed.

(** C3, amended: the counter starts at 0; the Ask phase leaves it as it is
    and every Deliver that returns advances it by one, modulo 2^64, whether
    or not a row was serialized; so a run of the scheduler advances it by the
    number of accepted nodes, and it does not decrease as long as that sum
    stays below 2^64. *)
Theorem counter_once_per_deliver {api : ggml_api} (growth : Z -> Z -> Z -> Z) :
  id initial_session = 0 /\
  (forall t ask s r s',
     ggml_eval_layer_output growth t ask s = Ok (r, s') ->
     id s' = if ask then id s else to_size_t (id s + 1)) /\
  (forall nodes s s',
     0 <= id s < 2 ^ 64 ->
     sched_eval growth nodes s = Ok s' ->
     id s' = to_size_t (id s + count_accepted growth s nodes) /\
     (id s + count_accepted growth s nodes < 2 ^ 64 -> id s <= id s')).
Proof.
  split; [reflexivity|]. split.
  - intros t [] s r s' E.
    + now rewrite (ask_state growth _ _ _ _ E).
    + now destruct (deliver_inv growth _ _ _ _ E) as (_ & _ & I & _).
  - intros nodes s s' R E.
    pose proof (sched_eval_id growth nodes s s' R E) as I.
    split; [exact I|]. intros B. rewrite I, to_size_t_small.
    + unfold count_accepted. lia.
    + unfold count_accepted in *. lia.
Qed.

Lemma counter_once_per_deliver_witness :
  id (a_session (LLM_ARCH_OTHER 0)) <= 2 /\
  exists s',
    sched_eval (api := test_api) exact_growth
      [named "l_out-0"; named "attn_norm"; q4_0_row]
      (a_session (LLM_ARCH_OTHER 0)) = Ok s' /\
    id s' = 2.
Proof.
  split; [unfold a_session, id; lia|].
  eexists. split; [reflexivity|].
  refine (proj1 (proj2 (proj2 (counter_once_per_deliver (api := test_api)
                                 exact_growth))
                  [named "l_out-0"; named "attn_norm"; q4_0_row]
                  (a_session (LLM_ARCH_OTHER 0)) _ _ eq_refl)).
  unfold a_session, id. lia.
Defined.

(** ** The rows of a delivered tensor *)

Lemma for_loop_inv {S : Type} (P : S -> Prop) (body : Z -> S -> result S) :
  (forall i s s', P s -> body i s = Ok s' -> P s') ->
  forall n i s s', P s -> for_loop n i body s = Ok s' -> P s'.
Proof.
  intros B. induction n as [|n IH]; intros i s s' H E; cbn [for_loop] in E.
  - now injection E as <-.
  - apply bind_ok in E as (s1 & E1 & E). eauto.
Qed.

Lemma for_lt_inv {S : Type} (P : S -> Prop) (hi : Z) (body : Z -> S -> result S) :
  (forall i s s', P s -> body i s = Ok s' -> P s') ->
  forall s s', P s -> for_lt hi body s = Ok s' -> P s'.
Proof. intros B s s'. apply for_loop_inv, B. Qed.

Lemma put_lines_app (csv : ofstream) (l1 l2 : list csv_line) :
  put_lines csv (l1 ++ l2) = put_lines (put_lines csv l1) l2.
Proof. apply fold_left_app. Qed.

Section Rows.

Context {api : ggml_api} (growth : Z -> Z -> Z -> Z).

(** Whatever the shape, what the printer adds to the stream are data rows
    that carry the [id] it was given. *)
Lemma print_rows_inv (csv : ofstream) (data : buffer) (id : Z)
    (t : ggml_tensor) (csv' : ofstream) :
  ggml_print_tensor_to_csv csv data id t = Ok csv' ->
  exists rows, csv' = put_lines csv rows /\
               Forall (fun l => line_id l = Some id) rows.
Proof.
  unfold ggml_print_tensor_to_csv. intros E0.
  apply bind_ok in E0 as (unq & _ & E0). revert E0.
  set (P := fun c => exists rows, c = put_lines csv rows /\
                                  Forall (fun l => line_id l = Some id) rows).
  apply (for_lt_inv P); [|exists []; split; [reflexivity|constructor]].
  intros i3 s3 s3' H3. apply (for_lt_inv P); [|exact H3].
  intros i2 s2 s2' H2. apply (for_lt_inv P); [|exact H2].
  intros i1 s1 s1' H1. apply (for_lt_inv P); [|exact H1].
  intros i0 s0 s0' (rows & -> & F) E.
  unfold print_element in E. apply bind_ok in E as (v & _ & E).
  injection E as <-. eexists (rows ++ [_]). split.
  - rewrite put_lines_app. reflexivity.
  - apply Forall_app. split; [exact F|]. constructor; [reflexivity|constructor].
Qed.

(** The rows of one Deliver all carry the value the counter has when the
    Deliver begins. *)
Lemma deliver_rows (t : ggml_tensor) (s : session) (r : bool) (s' : session) :
  ggml_eval_layer_output growth t false s = Ok (r, s') ->
  exists rows, out_csv s' = put_lines (out_csv s) rows /\
               Forall (fun l => line_id l = Some (id s)) rows.
Proof.
  intros E. destruct (deliver_inv growth _ _ _ _ E) as (_ & _ & _ & _ & P).
  destruct (ggml_is_quantized (type t)).
  - injection P as <-. exists []. split; [reflexivity|constructor].
  - now apply print_rows_inv in P.
Qed.

(** The rows of a run come in groups, one per accepted node and in the order
    of the nodes; the rows of the [j]-th group carry the counter of the
    start plus [j]. *)
Lemma sched_eval_rows (nodes : list ggml_tensor) :
  forall s s', 0 <= id s < 2 ^ 64 -> sched_eval growth nodes s = Ok s' ->
    exists groups,
      out_csv s' = put_lines (out_csv s) (List.concat groups) /\
      Z.of_nat (List.length groups) = count_accepted growth s nodes /\
      forall j g, nth_error groups j = Some g ->
        Forall (fun l => line_id l = Some (to_size_t (id s + Z.of_nat j))) g.
Proof.
  induction nodes as [|t rest IH]; intros s s' R E.
  - apply sched_eval_nil_inv in E as ->. exists []. repeat split.
    intros [|j] g; discriminate.
  - rewrite count_accepted_cons.
    apply sched_eval_cons_inv in E as [[A E]|[A (s1 & Ed & E)]]; rewrite A.
    + now apply IH.
    + destruct (deliver_inv growth _ _ _ _ Ed) as (_ & G & I & _).
      destruct (deliver_rows _ _ _ _ Ed) as (rows & O & F).
      destruct (IH s1 s') as (groups & O' & L & J); [|exact E|].
      { rewrite I. apply to_size_t_range. }
      exists (rows :: groups). split; [|split].
      * cbn [List.concat]. now rewrite put_lines_app, <- O.
      * cbn [List.length]. rewrite (count_accepted_g_model growth rest s1 s G) in L.
        lia.
      * intros [|j] g Ej; cbn [nth_error] in Ej.
        -- injection Ej as <-. cbn. rewrite Z.add_0_r, to_size_t_small; assumption.
        -- specialize (J j g Ej). rewrite I, to_size_t_succ_add in J.
           now replace (id s + Z.of_nat (S j)) with (id s + (1 + Z.of_nat j)) by lia.
Qed.

(** What a run of [main] that returns has done: nothing when the command
    line is refused; the header alone when the model fails to load; else a
    run of the scheduler from [run_session], and the exit code of
    [llama_decode]'s status. *)
Lemma main_inv (env : environment) (o : outcome) :
  main growth env = Ok o ->
  (params_parse_ok env = false /\ o = Outcome 1 initial_session []) \/
  (params_parse_ok env = true /\ init_model env = None /\
   o = Outcome 1
         {| out_csv := init_csv_columns (Stream (out_file_opens env) []);
            g_model := None; id := 0;
            cb_data := CallbackData (Vector 0 []) |}
         ["main : failed to init"%string]) \/
  (params_parse_ok env = true /\
   exists arch s',
     init_model env = Some arch /\
     sched_eval growth (graph_nodes env) (run_session env arch) = Ok s' /\
     o = if llama_decode_status env =? 0
         then Outcome 0 s' []
         else Outcome 1 s' ["run : failed to eval"%string]).
Proof.
  unfold main. destruct (params_parse_ok env); cbn [negb].
  2:{ intros E. injection E as <-. left. auto. }
  destruct (init_model env) as [arch|].
  2:{ intros E. injection E as <-. right. left. auto. }
  intros E. right. right. split; [reflexivity|].
  apply bind_ok in E as ([[OK s'] log] & Er & E).
  unfold run in Er. apply bind_ok in Er as (s1 & Es & Er).
  exists arch, s1. split; [reflexivity|]. split; [exact Es|].
  destruct (llama_decode_status env =? 0); cbn [negb] in Er;
    injection Er as <- <- <-; cbn [negb] in E; now injection E as <-.
Qed.

End Rows.

(** ** Multi-indices and positions *)

Lemma div_mod_digit (r a q : Z) :
  0 <= r < a -> (r + a * q) mod a = r /\ (r + a * q) / a = q.
Proof.
  intros H. rewrite (Z.mul_comm a). split.
  - rewrite Z.mod_add by lia. apply Z.mod_small, H.
  - rewrite Z.div_add by lia. rewrite Z.div_small by lia. lia.
Qed.

Lemma div_by_product (k a b c : Z) :
  0 < a -> 0 < b -> 0 < c ->
  k / (a * b) = k / a / b /\ k / (a * b * c) = k / a / b / c.
Proof.
  intros Ha Hb Hc. rewrite !Z.div_div by nia. split; reflexivity.
Qed.

(** The [k]-th multi-index of the walk is the one at position [k]. *)
Lemma element_index_nth_index (ne : dims) (k : Z) :
  nonneg ne -> 0 <= k < d0 ne * d1 ne * d2 ne * d3 ne ->
  element_index ne (nth_index ne k) = k.
Proof.
  destruct ne as [e0 e1 e2 e3]. unfold nonneg, element_index, nth_index.
  cbn [d0 d1 d2 d3]. intros (H0 & H1 & H2 & H3) Hk.
  assert (0 < e0 /\ 0 < e1 /\ 0 < e2) as (P0 & P1 & P2) by nia.
  destruct (div_by_product k e0 e1 e2 P0 P1 P2) as [-> ->].
  pose proof (Z.div_mod k e0 ltac:(lia)).
  pose proof (Z.div_mod (k / e0) e1 ltac:(lia)).
  pose proof (Z.div_mod (k / e0 / e1) e2 ltac:(lia)).
  nia.
Qed.

(** Every multi-index below the shape is visited, at its position. *)
Lemma nth_index_element_index (ne idx : dims) :
  below idx ne ->
  nth_index ne (element_index ne idx) = idx /\
  0 <= element_index ne idx < d0 ne * d1 ne * d2 ne * d3 ne.
Proof.
  destruct ne as [e0 e1 e2 e3], idx as [i0 i1 i2 i3].
  unfold below, element_index, nth_index. cbn [d0 d1 d2 d3].
  intros (H0 & H1 & H2 & H3). split.
  - destruct (div_by_product (i0 + e0 * (i1 + e1 * (i2 + e2 * i3))) e0 e1 e2)
      as [-> ->]; [lia|lia|lia|].
    destruct (div_mod_digit i0 e0 (i1 + e1 * (i2 + e2 * i3)) H0) as [-> ->].
    destruct (div_mod_digit i1 e1 (i2 + e2 * i3) H1) as [-> ->].
    destruct (div_mod_digit i2 e2 i3 H2) as [-> ->].
    reflexivity.
  - assert (0 <= e2 * i3) by (apply Z.mul_nonneg_nonneg; lia).
    assert (0 <= e1 * (i2 + e2 * i3)) by (apply Z.mul_nonneg_nonneg; lia).
    assert (0 <= e0 * (i1 + e1 * (i2 + e2 * i3)))
      by (apply Z.mul_nonneg_nonneg; lia).
    assert (e2 * i3 <= e2 * (e3 - 1))
      by (apply Z.mul_le_mono_nonneg_l; lia).
    assert (e1 * (i2 + e2 * i3) <= e1 * (e2 * e3 - 1))
      by (apply Z.mul_le_mono_nonneg_l; lia).
    assert (e0 * (i1 + e1 * (i2 + e2 * i3)) <= e0 * (e1 * (e2 * e3) - 1))
      by (apply Z.mul_le_mono_nonneg_l; lia).
    lia.
Qed.

Lemma nth_error_combine {A B : Type} (l : list A) (l' : list B) :
  forall n a b, nth_error l n = Some a -> nth_error l' n = Some b ->
                nth_error (combine l l') n = Some (a, b).
Proof.
  revert l'. induction l as [|x l IH]; intros [|y l'] [|n] a b Ha Hb;
    try discriminate; cbn in *.
  - congruence.
  - now apply IH.
Qed.

(** ** The claims on the Deliver phase *)

(** C5 fails as stated: the Deliver of a block-quantized tensor of 32
    elements returns and has written no line. *)
Lemma quantized_tensor_not_serialized :
  ggml_is_quantized (type q4_0_row) = true /\
  ggml_nelements q4_0_row = 32 /\
  exists s',
    ggml_eval_layer_output (api := test_api) exact_growth q4_0_row false
      (a_session LLM_ARCH_WAVTOKENIZER_DEC) = Ok (true, s') /\
    lines (out_csv s') = [].
Proof. split; [reflexivity|]. split; [reflexivity|]. eexists. split; reflexivity. Qed.

(** C5, amended: the Deliver phase does not serialize a block-quantized
    tensor.  After the copy to the scratch vector, if one is needed, it
    leaves the output as it is, advances the counter and returns true. *)
Theorem quantized_deliver_skips {api : ggml_api} (growth : Z -> Z -> Z -> Z)
    (t : ggml_tensor) (s : session) :
  ggml_is_quantized (type t) = true ->
  copy_ok t ->
  ggml_eval_layer_output growth t false s
  = Ok (true, {| out_csv := out_csv s;
                 g_model := g_model s;
                 id := to_size_t (id s + 1);
                 cb_data := transfer growth t (cb_data s) |}).
Proof.
  intros Q C. rewrite (deliver_eq growth t s C), Q. reflexivity.
Qed.

Lemma quantized_deliver_skips_witness :
  ggml_is_quantized (type q4_0_row) = true /\
  ggml_eval_layer_output (api := test_api) exact_growth q4_0_row false
    (a_session LLM_ARCH_WAVTOKENIZER_DEC)
  = Ok (true, {| out_csv := Stream true [];
                 g_model := Some LLM_ARCH_WAVTOKENIZER_DEC;
                 id := 1;
                 cb_data := CallbackData (Vector 0 []) |}).
Proof.
  split; [reflexivity|].
  apply (quantized_deliver_skips (api := test_api) exact_growth q4_0_row
           (a_session LLM_ARCH_WAVTOKENIZER_DEC)).
  - reflexivity.
  - intros H. discriminate H.
Defined.

(** C6 fails as stated: an intercepted block-quantized tensor of 2048
    elements gets no row. *)
Lemma quantized_tensor_has_no_rows :
  d0 (ne q4_0_tensor) * d1 (ne q4_0_tensor) * d2 (ne q4_0_tensor)
    * d3 (ne q4_0_tensor) = 2048 /\
  exists s',
    ggml_eval_layer_output (api := test_api) exact_growth q4_0_tensor false
      (a_session (LLM_ARCH_OTHER 0)) = Ok (true, s') /\
    List.length (data_rows (out_csv s')) = 0%nat.
Proof. split; [reflexivity|]. eexists. split; reflexivity. Qed.

(** C6, amended: for an intercepted tensor of one of the five decodable types
    whose elements lie inside the delivered bytes, with the output stream
    open, the Deliver phase returns and appends [e0*e1*e2*e3] rows: the
    [k]-th is the row of the multi-index [nth_index k], and every multi-index
    below the shape is the [k]-th for exactly one [k].  There are no rows
    when an extent is zero. *)
Theorem deliver_row_count {api : ggml_api} (growth : Z -> Z -> Z -> Z)
    (t : ggml_tensor) (s : session) :
  decodable (type t) = true ->
  nonneg (ne t) ->
  copy_ok t ->
  in_bounds t (Z.of_nat (List.length (delivered_bytes t))) ->
  is_open (out_csv s) = true ->
  exists s' vs,
    ggml_eval_layer_output growth t false s = Ok (true, s') /\
    lines (out_csv s') = lines (out_csv s) ++ rows_of (id s) t vs /\
    Z.of_nat (List.length (rows_of (id s) t vs))
    = d0 (ne t) * d1 (ne t) * d2 (ne t) * d3 (ne t) /\
    (forall k, 0 <= k < ggml_nelements t ->
       exists v, nth_error (rows_of (id s) t vs) (Z.to_nat k)
                 = Some (row_of (id s) t (nth_index (ne t) k) v)) /\
    (forall idx, below idx (ne t) ->
       exists k, 0 <= k < ggml_nelements t /\ nth_index (ne t) k = idx /\
                 forall k', 0 <= k' < ggml_nelements t ->
                            nth_index (ne t) k' = idx -> k' = k).
Proof.
  intros D N C B O.
  destruct (print_total (out_csv s) (delivered_bytes t) (id s) t D N B)
    as (vs & L & _ & P).
  exists (delivered growth t s (put_lines (out_csv s) (rows_of (id s) t vs))), vs.
  assert (0 <= ggml_nelements t) as Hn.
  { unfold ggml_nelements. destruct N as (? & ? & ? & ?).
    repeat apply Z.mul_nonneg_nonneg; assumption. }
  split; [|split; [|split; [|split]]].
  - rewrite (deliver_eq growth t s C), P.
    assert (ggml_is_quantized (type t) = false) as ->
      by (destruct (type t); try discriminate D; reflexivity).
    reflexivity.
  - cbn [delivered out_csv]. now rewrite put_lines_open.
  - rewrite length_rows_of by assumption. fold (ggml_nelements t). lia.
  - intros k Hk. unfold rows_of.
    destruct (nth_error vs (Z.to_nat k)) as [v|] eqn:E.
    2:{ apply nth_error_None in E. lia. }
    exists v. rewrite nth_error_map.
    assert (nth_error (range (ggml_nelements t)) (Z.to_nat k) = Some k) as R.
    { unfold range. rewrite nth_error_map, nth_error_seq.
      destruct (Nat.ltb_spec (Z.to_nat k) (Z.to_nat (ggml_nelements t)));
        [cbn; f_equal; lia|lia]. }
    rewrite (nth_error_combine _ _ _ _ _ R E). reflexivity.
  - intros idx Hb.
    destruct (nth_index_element_index (ne t) idx Hb) as [E R].
    exists (element_index (ne t) idx). split; [exact R|]. split; [exact E|].
    intros k' Hk' <-. symmetry. now apply element_index_nth_index.
Qed.

Ltac concrete_in_bounds :=
  let idx := fresh "idx" in
  intros idx; destruct idx; unfold below, spec_offset;
  cbn [ne nb type d0 d1 d2 d3 elem_size]; cbn [List.length delivered_bytes];
  intros (? & ? & ? & ?); lia.

Lemma f32_2x3_in_bounds : in_bounds f32_2x3 24.
Proof. unfold f32_2x3. concrete_in_bounds. Qed.

Lemma deliver_row_count_witness :
  decodable (type f32_2x3) = true /\
  is_open (out_csv (a_session (LLM_ARCH_OTHER 0))) = true /\
  exists s' vs,
    ggml_eval_layer_output (api := test_api) exact_growth f32_2x3 false
      (a_session (LLM_ARCH_OTHER 0)) = Ok (true, s') /\
    Z.of_nat (List.length (rows_of (api := test_api) 0 f32_2x3 vs)) = 6.
Proof.
  split; [reflexivity|]. split; [reflexivity|].
  destruct (deliver_row_count (api := test_api) exact_growth f32_2x3
              (a_session (LLM_ARCH_OTHER 0)))
    as (s' & vs & E & _ & L & _).
  - reflexivity.
  - unfold nonneg, f32_2x3; cbn; lia.
  - intros H. discriminate H.
  - exact f32_2x3_in_bounds.
  - reflexivity.
  - exists s', vs. split; [exact E|exact L].
Defined.

(** ** The walk *)

Lemma map_result_map {A B C : Type} (g : A -> B) (f : B -> result C)
    (l : list A) :
  map_result f (map g l) = map_result (fun a => f (g a)) l.
Proof.
  induction l as [|a l IH]; [reflexivity|].
  cbn [map map_result]. now rewrite IH.
Qed.

Lemma combine_map_l {A B C : Type} (g : A -> B) (l : list A) (l' : list C) :
  combine (map g l) l' = map (fun p => (g (fst p), snd p)) (combine l l').
Proof.
  revert l'. induction l as [|a l IH]; intros [|c l']; try reflexivity.
  cbn [map combine fst snd]. now rewrite IH.
Qed.

Lemma NoDup_range (n : Z) : NoDup (range n).
Proof.
  unfold range. apply NoDup_map_NoDup_ForallPairs; [|apply seq_NoDup].
  intros a b _ _ H. lia.
Qed.

(** The walk visits every multi-index below the shape, each once. *)
Lemma walk_trace_indices (ne nb : dims) :
  nonneg ne ->
  NoDup (map fst (walk_trace ne nb)) /\
  forall idx, below idx ne <-> In idx (map fst (walk_trace ne nb)).
Proof.
  intros N. unfold walk_trace. rewrite map_map. cbn [fst]. split.
  - apply NoDup_map_NoDup_ForallPairs; [|apply NoDup_range].
    intros a b Ha Hb E. apply in_range in Ha, Hb.
    rewrite <- (element_index_nth_index ne a N Ha).
    rewrite <- (element_index_nth_index ne b N Hb). now rewrite E.
  - intros idx. rewrite in_map_iff. split.
    + intros B. destruct (nth_index_element_index ne idx B) as [E R].
      exists (element_index ne idx). split; [exact E|]. now apply in_range.
    + intros (k & <- & Hk). apply in_range in Hk.
      now apply nth_index_below.
Qed.

(** The printer in terms of the walk: it decodes at the offsets of the
    trace, in order, and writes the rows of its multi-indices. *)
Lemma print_trace {api : ggml_api} (csv : ofstream) (bytes : buffer) (id : Z)
    (t : ggml_tensor) :
  nonneg (ne t) ->
  ggml_print_tensor_to_csv csv bytes id t
  = (vs <- map_result
             (fun p => decode_element (type t) bytes (unquantized_of t bytes)
                         (snd p))
             (walk_trace (ne t) (nb t)) ;;
     Ok (put_lines csv
           (map (fun pv => row_of id t (fst (fst pv)) (snd pv))
                (combine (walk_trace (ne t) (nb t)) vs)))).
Proof.
  intros N. rewrite print_spec by assumption.
  unfold walk_trace, rows_of, value_of, ggml_nelements.
  rewrite map_result_map. cbn [snd].
  destruct (map_result _ _) as [vs|f]; [|reflexivity].
  cbn [bind]. rewrite combine_map_l, map_map. reflexivity.
Qed.

(** C7: for non-negative extents the printer decodes at the offsets of
    [walk_trace] and writes the rows of its multi-indices, in that order.
    The trace lists, for k = 0, 1, ..., e0*e1*e2*e3 - 1, the multi-index
    [nth_index k] (so [i0] varies fastest and [i3] slowest) with the offset
    [i3*s3 + i2*s2 + i1*s1 + i0*s0] reduced modulo 2^64, which is that sum
    whenever it fits a [size_t]; every multi-index below the shape is in it
    once; it depends on the shape and the strides alone; and the float32
    tensor of shape (2,3,1,1) gets 6 rows whose index column reads
    {0, 0, 0, 0}, {1, 0, 0, 0}, {0, 1, 0, 0}, {1, 1, 0, 0}, {0, 2, 0, 0},
    {1, 2, 0, 0}. *)
Theorem walker_order {api : ggml_api} (csv : ofstream) (bytes : buffer) (id : Z)
    (t : ggml_tensor) :
  nonneg (ne t) ->
  ggml_print_tensor_to_csv csv bytes id t
  = (vs <- map_result
             (fun p => decode_element (type t) bytes (unquantized_of t bytes)
                         (snd p))
             (walk_trace (ne t) (nb t)) ;;
     Ok (put_lines csv
           (map (fun pv => row_of id t (fst (fst pv)) (snd pv))
                (combine (walk_trace (ne t) (nb t)) vs)))) /\
  walk_trace (ne t) (nb t)
  = map (fun k => (nth_index (ne t) k,
                   to_size_t (spec_offset (nb t) (nth_index (ne t) k))))
        (range (d0 (ne t) * d1 (ne t) * d2 (ne t) * d3 (ne t))) /\
  (forall idx, 0 <= spec_offset (nb t) idx < 2 ^ 64 ->
               to_size_t (spec_offset (nb t) idx) = spec_offset (nb t) idx) /\
  NoDup (map fst (walk_trace (ne t) (nb t))) /\
  (forall idx, below idx (ne t) <-> In idx (map fst (walk_trace (ne t) (nb t)))) /\
  (forall t', ne t' = ne t -> nb t' = nb t ->
     walk_trace (ne t') (nb t') = walk_trace (ne t) (nb t)) /\
  (exists csv',
     ggml_print_tensor_to_csv (Stream true []) (data f32_2x3) id f32_2x3
     = Ok csv' /\
     map line_index (lines csv')
     = [Some "{0, 0, 0, 0}"; Some "{1, 0, 0, 0}"; Some "{0, 1, 0, 0}";
        Some "{1, 1, 0, 0}"; Some "{0, 2, 0, 0}"; Some "{1, 2, 0, 0}"]%string).
Proof.
  intros N. split; [now apply print_trace|]. split; [reflexivity|].
  split; [intros idx; apply to_size_t_small|].
  destruct (walk_trace_indices (ne t) (nb t) N) as [D I].
  split; [exact D|]. split; [exact I|]. split.
  - intros t' -> ->. reflexivity.
  - eexists. split; reflexivity.
Qed.

Lemma walker_order_witness :
  nonneg (ne f32_2x3) /\
  walk_trace (ne f32_2x3) (nb f32_2x3)
  = [(Dims 0 0 0 0, 0); (Dims 1 0 0 0, 4); (Dims 0 1 0 0, 8);
     (Dims 1 1 0 0, 12); (Dims 0 2 0 0, 16); (Dims 1 2 0 0, 20)] /\
  ggml_print_tensor_to_csv (api := test_api) (Stream true [])
    (data f32_2x3) 0 f32_2x3
  = Ok (Stream true
          (rows_of (api := test_api) 0 f32_2x3
             [F32 0x3f800000; F32 0x40000000; F32 0x40400000;
              F32 0x40800000; F32 0x40a00000; F32 0x40c00000])).
Proof.
  assert (nonneg (ne f32_2x3)) as N by (unfold nonneg, f32_2x3; cbn; lia).
  split; [exact N|]. split; [reflexivity|].
  rewrite (proj1 (walker_order (api := test_api) (Stream true [])
                    (data f32_2x3) 0 f32_2x3 N)).
  reflexivity.
Defined.

(** ** The scratch vector over a session *)

Section Scratch.

Context {api : ggml_api} (growth : Z -> Z -> Z -> Z).

Lemma length_delivered_bytes (t : ggml_tensor) :
  copy_ok t -> buffer_is_host t = false ->
  Z.of_nat (List.length (delivered_bytes t)) = Z.of_N (ggml_nbytes t).
Proof.
  intros C H. specialize (C H). unfold delivered_bytes. rewrite H.
  rewrite length_firstn. lia.
Qed.

(** The Transfer step of a Deliver: a copy fills the vector with the byte
    footprint of the tensor; no copy leaves it as it is. *)
Lemma deliver_scratch (t : ggml_tensor) (s : session) (r : bool) (s' : session) :
  ggml_eval_layer_output growth t false s = Ok (r, s') ->
  if buffer_is_host t then cb_data s' = cb_data s
  else size (scratch s') = Z.of_N (ggml_nbytes t) /\
       capacity (scratch s')
       = capacity (resize growth (scratch s) (Z.of_N (ggml_nbytes t))).
Proof.
  intros E. pose proof (deliver_copy_ok growth _ _ _ E) as C.
  destruct (deliver_inv growth _ _ _ _ E) as (_ & _ & _ & T & _).
  unfold scratch. rewrite T. unfold transfer.
  destruct (buffer_is_host t) eqn:H; [reflexivity|].
  cbn [cb_data_data capacity]. split; [|reflexivity].
  unfold size. cbn [elems]. now apply length_delivered_bytes.
Qed.

Lemma callback_step_scratch (s s' : session) :
  vector_ok (scratch s) -> callback_step growth s s' ->
  vector_ok (scratch s') /\ capacity (scratch s) <= capacity (scratch s').
Proof.
  intros V S. revert V. destruct S as [t [] s0 r s0' E]; intros V.
  - rewrite (ask_state growth _ _ _ _ E). split; [exact V|lia].
  - pose proof (deliver_scratch _ _ _ _ E) as D.
    destruct (buffer_is_host t).
    + unfold scratch. rewrite D. split; [exact V|lia].
    + destruct D as [Sz Cp]. unfold vector_ok. rewrite Sz, Cp. split.
      * now apply resize_room.
      * apply resize_capacity.
Qed.

Lemma callback_steps_scratch (s s' : session) :
  callback_steps growth s s' -> vector_ok (scratch s) ->
  vector_ok (scratch s') /\ capacity (scratch s) <= capacity (scratch s').
Proof.
  induction 1 as [s|s1 s2 s3 S12 _ IH]; intros V; [split; [exact V|lia]|].
  destruct (callback_step_scratch _ _ V S12) as [V2 L12].
  destruct (IH V2) as [V3 L23]. split; [exact V3|lia].
Qed.

End Scratch.

(** C8 fails as stated: the Deliver of a host-addressable tensor of 4 bytes
    leaves the scratch vector with the capacity 0 it had. *)
Lemma host_tensor_leaves_scratch_empty :
  ggml_nbytes (ggml_api := test_api) (named "l_out-0") = 4%N /\
  exists s',
    ggml_eval_layer_output (api := test_api) exact_growth (named "l_out-0")
      false (a_session (LLM_ARCH_OTHER 0)) = Ok (true, s') /\
    capacity (scratch s') = 0.
Proof. split; [reflexivity|]. eexists. split; reflexivity. Qed.

(** C8, amended: after a Deliver of a tensor that is not host-addressable the
    scratch vector holds exactly the byte footprint of that tensor, within
    its capacity; a Deliver of a host-addressable tensor, and an Ask, leave
    the vector as it is; and from the empty vector on, over any sequence of
    invocations of the callback, the capacity does not shrink (the size
    does, when a smaller tensor follows). *)
Theorem scratch_capacity {api : ggml_api} (growth : Z -> Z -> Z -> Z) :
  (forall t s r s',
     vector_ok (scratch s) ->
     buffer_is_host t = false ->
     ggml_eval_layer_output growth t false s = Ok (r, s') ->
     size (scratch s') = Z.of_N (ggml_nbytes t) /\
     Z.of_N (ggml_nbytes t) <= capacity (scratch s')) /\
  (forall t ask s r s',
     ask = true \/ buffer_is_host t = true ->
     ggml_eval_layer_output growth t ask s = Ok (r, s') ->
     scratch s' = scratch s) /\
  vector_ok (scratch initial_session) /\
  (forall s s',
     vector_ok (scratch s) ->
     callback_steps growth s s' ->
     vector_ok (scratch s') /\ capacity (scratch s) <= capacity (scratch s')).
Proof.
  split; [|split; [|split]].
  - intros t s r s' V H E.
    pose proof (deliver_scratch growth _ _ _ _ E) as D. rewrite H in D.
    destruct D as [Sz Cp]. split; [exact Sz|].
    rewrite Cp. now apply resize_room.
  - intros t [] s r s' H E.
    + now rewrite (ask_state growth _ _ _ _ E).
    + destruct H as [H|H]; [discriminate|].
      pose proof (deliver_scratch growth _ _ _ _ E) as D. rewrite H in D.
      unfold scratch. now rewrite D.
  - unfold vector_ok, size. cbn. lia.
  - intros s s' V S. now apply (callback_steps_scratch growth).
Qed.

Lemma scratch_capacity_witness :
  vector_ok (scratch (a_session (LLM_ARCH_OTHER 0))) /\
  exists s',
    ggml_eval_layer_output (api := test_api) exact_growth f32_2x3_device
      false (a_session (LLM_ARCH_OTHER 0)) = Ok (true, s') /\
    size (scratch s') = 24 /\ 24 <= capacity (scratch s').
Proof.
  assert (vector_ok (scratch (a_session (LLM_ARCH_OTHER 0)))) as V
    by (unfold vector_ok, size; cbn; lia).
  split; [exact V|]. eexists. split; [reflexivity|].
  exact (proj1 (scratch_capacity (api := test_api) exact_growth)
           f32_2x3_device (a_session (LLM_ARCH_OTHER 0)) true _ V
           eq_refl eq_refl).
Defined.

(** ** Runs that return *)

Section Total.

Context {api : ggml_api} (growth : Z -> Z -> Z -> Z).

(** The Ask phase returns once [g_model] is set. *)
Lemma ask_total (t : ggml_tensor) (s : session) :
  g_model s <> None ->
  exists r, ggml_eval_layer_output growth t true s = Ok (r, s).
Proof.
  destruct (g_model s) as [arch|] eqn:G; [intros _|congruence].
  rewrite (ask_spec growth t s arch G). eauto.
Qed.

(** The Deliver phase returns on a deliverable tensor. *)
Lemma deliver_total (t : ggml_tensor) (s : session) :
  deliverable t ->
  exists s', ggml_eval_layer_output growth t false s = Ok (true, s') /\
             g_model s' = g_model s.
Proof.
  intros [C [Q|(D & N & B)]].
  - rewrite (deliver_eq growth t s C), Q. cbn. eauto.
  - destruct (print_total (out_csv s) (delivered_bytes t) (id s) t D N B)
      as (vs & _ & _ & P).
    rewrite (deliver_eq growth t s C), P.
    assert (ggml_is_quantized (type t) = false) as ->
      by (destruct (type t); try discriminate D; reflexivity).
    cbn. eauto.
Qed.

Lemma sched_eval_total (nodes : list ggml_tensor) :
  Forall deliverable nodes ->
  forall s, g_model s <> None -> exists s', sched_eval growth nodes s = Ok s'.
Proof.
  induction 1 as [|t rest D _ IH]; intros s G; cbn [sched_eval]; [eauto|].
  destruct (ask_total t s G) as [[] ->]; cbn [bind fst snd].
  - destruct (deliver_total t s D) as (s1 & -> & G1). cbn [bind fst snd].
    apply IH. now rewrite G1.
  - now apply IH.
Qed.

(** [main] returns when every node of the graph is deliverable. *)
Lemma main_total (env : environment) :
  Forall deliverable (graph_nodes env) -> exists o, main growth env = Ok o.
Proof.
  intros D. unfold main. destruct (params_parse_ok env); cbn [negb]; [|eauto].
  destruct (init_model env) as [arch|]; [|eauto].
  unfold run.
  destruct (sched_eval_total _ D
              {| out_csv := init_csv_columns (Stream (out_file_opens env) []);
                 g_model := Some arch; id := 0;
                 cb_data := CallbackData (Vector 0 []) |})
    as [s' E]; [discriminate|].
  cbn [out_csv g_model id cb_data initial_session] in *. rewrite E.
  cbn [bind]. destruct (llama_decode_status env =? 0); cbn; eauto.
Qed.

(** A stream that is not open stays empty through a run of the scheduler. *)
Lemma callback_steps_closed (s s' : session) :
  callback_steps growth s s' ->
  is_open (out_csv s) = false -> out_csv s' = out_csv s.
Proof.
  induction 1 as [s|s1 s2 s3 S12 _ IH]; intros O; [reflexivity|].
  assert (out_csv s2 = out_csv s1) as E.
  { destruct S12 as [t [] s0 r s0' E].
    - now rewrite (ask_state growth _ _ _ _ E).
    - destruct (deliver_rows growth _ _ _ _ E) as (rows & -> & _).
      now apply put_lines_closed. }
  rewrite IH; [exact E|]. now rewrite E.
Qed.

End Total.

(** ** An output file that cannot be opened *)

(** C4 fails as stated: when the output file cannot be opened and everything
    else goes well, [main] runs the graph (the counter ends at 3, for the
    three accepted nodes), logs no error and returns 0. *)
Lemma unopened_output_goes_unnoticed :
  out_file_opens (example_env false) = false /\
  exists o,
    main (api := test_api) exact_growth (example_env false) = Ok o /\
    exit_code o = 0 /\ errors o = [] /\ id (final o) = 3 /\
    lines (out_csv (final o)) = [].
Proof. split; [reflexivity|]. eexists. repeat split. Qed.

(** C4, amended: the program does not check whether the output file could be
    opened.  When it could not, a run that returns has written no line,
    neither the header nor a row; it has run the graph all the same whenever
    the command line was accepted and the model loaded; its exit code is 0
    exactly when the command line was accepted, the model loaded and
    [llama_decode] returned 0, and 1 otherwise; and the only errors it logs
    are those of the model and of [llama_decode].  The run returns whenever
    every node of the graph is deliverable. *)
Theorem unopened_output {api : ggml_api} (growth : Z -> Z -> Z -> Z)
    (env : environment) :
  out_file_opens env = false ->
  (forall o, main growth env = Ok o ->
     lines (out_csv (final o)) = [] /\
     (forall arch,
        params_parse_ok env = true -> init_model env = Some arch ->
        sched_eval growth (graph_nodes env) (run_session env arch)
        = Ok (final o)) /\
     exit_code o
     = (if params_parse_ok env
           && (match init_model env with Some _ => true | None => false end)
           && (llama_decode_status env =? 0)
        then 0 else 1) /\
     Forall (fun m => m = "main : failed to init"%string \/
                      m = "run : failed to eval"%string) (errors o)) /\
  (Forall deliverable (graph_nodes env) -> exists o, main growth env = Ok o).
Proof.
  intros F. split; [|apply main_total].
  intros o E.
  apply main_inv in E
    as [[Pf ->]|[(Pt & In & ->)|(Pt & arch & s' & In & E & ->)]];
    rewrite ?Pf, ?Pt, ?In, ?F; cbn [andb final exit_code errors out_csv].
  - repeat split; [discriminate|constructor].
  - repeat split; [discriminate|]. constructor; [now left|constructor].
  - assert (out_csv s' = Stream false []) as O.
    { apply sched_eval_steps in E.
      rewrite (callback_steps_closed growth _ _ E); unfold run_session;
        cbn [out_csv]; rewrite F; reflexivity. }
    destruct (llama_decode_status env =? 0);
      cbn [final exit_code errors]; rewrite O; cbn [lines].
    + repeat split; [|constructor].
      intros arch' _ Ha. now injection Ha as <-.
    + repeat split.
      * intros arch' _ Ha. now injection Ha as <-.
      * constructor; [now right|constructor].
Qed.

Lemma unopened_output_witness :
  out_file_opens (example_env false) = false /\
  exists o, main (api := test_api) exact_growth (example_env false) = Ok o /\
            lines (out_csv (final o)) = [] /\ exit_code o = 0.
Proof.
  split; [reflexivity|]. eexists. split; [reflexivity|].
  destruct (proj1 (unopened_output (api := test_api) exact_growth
                     (example_env false) eq_refl) _ eq_refl)
    as (L & _ & X & _).
  split; [exact L|exact X].
Defined.

(** ** The decoder *)

Lemma holds_from_spec (f : Z -> bool) (n : nat) :
  forall i, holds_from f n i = true ->
            forall k, i <= k < i + Z.of_nat n -> f k = true.
Proof.
  induction n as [|n IH]; intros i H k Hk; [lia|].
  cbn [holds_from] in H. apply andb_true_iff in H as [H0 H].
  destruct (Z.eq_dec k i) as [->|]; [exact H0|].
  apply (IH (i + 1)); [exact H|lia].
Qed.

(** The widening of a binary16 pattern has the value of the pattern: checked
    on all 65536 of them. *)
Lemma fp16_widening_exact (h : Z) :
  0 <= h < 65536 ->
  same_value (spec_of_half h) (float_value (ggml_fp16_to_fp32 h)) = true.
Proof.
  intros H.
  apply (holds_from_spec
           (fun h => same_value (spec_of_half h)
                       (float_value (ggml_fp16_to_fp32 h)))
           (Z.to_nat 65536) 0); [vm_compute; reflexivity|lia].
Qed.

(** The conversion of a 16-bit integer to float is exact: checked on all
    65536 of them. *)
Lemma float_of_int16_exact (z : Z) :
  - 32768 <= z < 32768 ->
  same_value (spec_of_int z) (float_value (float_of_int z)) = true.
Proof.
  intros H.
  apply (holds_from_spec
           (fun z => same_value (spec_of_int z) (float_value (float_of_int z)))
           (Z.to_nat 65536) (- 32768)); [vm_compute; reflexivity|lia].
Qed.

(** Beyond 24 bits the conversion rounds to nearest, ties to even. *)
Example float_of_int_rounds :
  float_of_int 16777216 = F32 0x4b800000 /\
  float_of_int 16777217 = F32 0x4b800000 /\
  float_of_int 16777218 = F32 0x4b800001 /\
  float_of_int 16777219 = F32 0x4b800002 /\
  float_of_int 2147483647 = F32 0x4f000000 /\
  float_of_int (-2147483648) = F32 0xcf000000 /\
  float_of_int (-1) = F32 0xbf800000 /\
  float_of_int 0 = F32 0.
Proof. vm_compute. repeat split. Qed.

Lemma byte_range (b : byte) : 0 <= Z.of_N (Byte.to_N b) < 256.
Proof. pose proof (Byte.to_N_bounded b). lia. Qed.

Lemma testbit_small (u n : Z) : 0 <= n -> 0 <= u < 2 ^ n -> Z.testbit u n = false.
Proof.
  intros Hn [H0 H1]. destruct (Z.eq_dec u 0) as [->|]; [apply Z.bits_0|].
  apply Z.bits_above_log2; [lia|]. apply Z.log2_lt_pow2; lia.
Qed.

Lemma lor_byte_shift (b r : Z) :
  0 <= b < 256 -> Z.lor b (Z.shiftl r 8) = b + 256 * r.
Proof.
  intros H. pose proof (Z.add_lor_land b (Z.shiftl r 8)) as A.
  assert (Z.land b (Z.shiftl r 8) = 0) as L.
  { apply Z.bits_inj'. intros n Hn. rewrite Z.land_spec, Z.bits_0.
    destruct (Z.lt_ge_cases n 8).
    - rewrite Z.shiftl_spec_low by assumption. apply andb_false_r.
    - rewrite (testbit_small b n); [reflexivity|lia|].
      split; [lia|]. apply Z.lt_le_trans with (2 ^ 8); [lia|].
      apply Z.pow_le_mono_r; lia. }
  rewrite Z.shiftl_mul_pow2 in * by lia. lia.
Qed.

(** Reading an integer type reads the sign-extension of the pattern. *)
Lemma signed_sign_extend (w u : Z) :
  0 < w -> 0 <= u < 2 ^ w -> signed w u = sign_extend w u.
Proof.
  intros Hw Hu. unfold signed, sign_extend.
  assert (2 ^ w = 2 * 2 ^ (w - 1)) as P
    by (rewrite <- Z.pow_succ_r by lia; f_equal; lia).
  destruct (Z.ltb_spec u (2 ^ (w - 1))) as [H|H].
  - rewrite testbit_small; [reflexivity|lia|lia].
  - assert (Z.testbit u (w - 1) = true) as ->; [|reflexivity].
    apply Z.testbit_true; [lia|].
    replace (u / 2 ^ (w - 1)) with 1; [reflexivity|].
    apply Z.div_unique with (u - 2 ^ (w - 1)); lia.
Qed.

Lemma bytes_at_succ (bytes : buffer) (i : Z) (n : nat) :
  bytes_at bytes i (S n)
  = match load_byte bytes i with
    | Some b => option_map (cons b) (bytes_at bytes (i + 1) n)
    | None => None
    end.
Proof.
  unfold bytes_at, load_byte.
  destruct (Z.ltb_spec i 0) as [H|H].
  { replace (0 <=? i) with false by (symmetry; apply Z.leb_gt; lia).
    reflexivity. }
  replace (0 <=? i) with true by (symmetry; apply Z.leb_le; lia).
  replace (0 <=? i + 1) with true by (symmetry; apply Z.leb_le; lia).
  rewrite <- hd_error_skipn.
  replace (Z.to_nat (i + 1)) with (S (Z.to_nat i)) by lia.
  destruct (skipn (Z.to_nat i) bytes) as [|x l] eqn:E.
  - cbn. reflexivity.
  - assert (skipn (S (Z.to_nat i)) bytes = l) as ->.
    { change (S (Z.to_nat i)) with (1 + Z.to_nat i)%nat.
      now rewrite <- skipn_skipn, E. }
    cbn [hd_error option_map firstn List.length andb].
    change (S (List.length (firstn n l)) =? S n)%nat
      with (List.length (firstn n l) =? n)%nat.
    destruct (List.length (firstn n l) =? n)%nat; reflexivity.
Qed.

(** The little-endian load is the base-256 number of the bytes. *)
Lemma load_le_spec (n : nat) (bytes : buffer) :
  forall i bs, bytes_at bytes i n = Some bs ->
    load_le n bytes i = Some (le_value bs) /\
    List.length bs = n /\ 0 <= le_value bs < 256 ^ Z.of_nat n.
Proof.
  induction n as [|n IH]; intros i bs E.
  - unfold bytes_at in E. cbn [firstn map] in E.
    destruct (_ && _); [|discriminate]. injection E as <-.
    cbn. repeat split; lia.
  - rewrite bytes_at_succ in E. cbn [load_le].
    unfold load_byte in *. destruct (i <? 0); [discriminate|].
    destruct (nth_error bytes (Z.to_nat i)) as [x|]; [|discriminate].
    cbn [option_map] in *.
    destruct (bytes_at bytes (i + 1) n) as [bs'|] eqn:E'; [|discriminate].
    injection E as <-. destruct (IH _ _ E') as (-> & L & R).
    pose proof (byte_range x) as Bx.
    rewrite lor_byte_shift by assumption. cbn [le_value fold_right List.length].
    fold (le_value bs'). repeat split; [now f_equal|lia|].
    rewrite Nat2Z.inj_succ, Z.pow_succ_r by lia. lia.
Qed.

Lemma signed_range (w u : Z) :
  0 < w -> 0 <= u < 2 ^ w -> - 2 ^ (w - 1) <= signed w u < 2 ^ (w - 1).
Proof.
  intros Hw Hu. unfold signed.
  assert (2 ^ w = 2 * 2 ^ (w - 1)) as P
    by (rewrite <- Z.pow_succ_r by lia; f_equal; lia).
  destruct (Z.ltb_spec u (2 ^ (w - 1))); lia.
Qed.

Lemma bytes_at_total (bytes : buffer) (i : Z) (n : nat) :
  0 <= i -> i + Z.of_nat n <= Z.of_nat (List.length bytes) ->
  exists bs, bytes_at bytes i n = Some bs.
Proof.
  intros Hi Hn. unfold bytes_at.
  replace (0 <=? i) with true by (symmetry; apply Z.leb_le; lia).
  rewrite length_firstn, length_skipn.
  replace (Nat.min n (List.length bytes - Z.to_nat i) =? n)%nat with true
    by (symmetry; apply Nat.eqb_eq; lia).
  cbn. eauto.
Qed.

(** C9: at an offset where the bytes lie inside the buffer, the decoder
    returns: under the float32 tag, the float whose pattern is the
    little-endian number of the 4 bytes; under the float16 tag, the widening
    of the 2 bytes, a float32 of the same value as the binary16; under an
    8-, 16- or 32-bit integer tag, the conversion to float of the
    sign-extended integer, which is exact for 8 and 16 bits (and rounds to
    nearest, ties to even, for 32). *)
Theorem decoder_cases (bytes : buffer) (i : Z) (bs : list Z) :
  (bytes_at bytes i 4 = Some bs ->
     decode_element GGML_TYPE_F32 bytes None i = Ok (F32 (le_value bs)) /\
     decode_element GGML_TYPE_I32 bytes None i
     = Ok (float_of_int (sign_extend 32 (le_value bs))) /\
     float_of_int (sign_extend 32 (le_value bs))
     = F32 (bits_of_spec
              (binary_normalize 24 128 (sign_extend 32 (le_value bs)) 0 false))) /\
  (bytes_at bytes i 2 = Some bs ->
     decode_element GGML_TYPE_F16 bytes None i
     = Ok (ggml_fp16_to_fp32 (le_value bs)) /\
     same_value (spec_of_half (le_value bs))
       (float_value (ggml_fp16_to_fp32 (le_value bs))) = true /\
     decode_element GGML_TYPE_I16 bytes None i
     = Ok (float_of_int (sign_extend 16 (le_value bs))) /\
     same_value (spec_of_int (sign_extend 16 (le_value bs)))
       (float_value (float_of_int (sign_extend 16 (le_value bs)))) = true) /\
  (bytes_at bytes i 1 = Some bs ->
     decode_element GGML_TYPE_I8 bytes None i
     = Ok (float_of_int (sign_extend 8 (le_value bs))) /\
     same_value (spec_of_int (sign_extend 8 (le_value bs)))
       (float_value (float_of_int (sign_extend 8 (le_value bs)))) = true).
Proof.
  split; [|split]; intros E;
    destruct (load_le_spec _ bytes i bs E) as (L & _ & R);
    cbn [decode_element]; rewrite L; cbn [of_option bind].
  - rewrite (signed_sign_extend 32) by (cbn in R; lia). repeat split.
  - change (256 ^ Z.of_nat 2) with 65536 in R.
    rewrite (signed_sign_extend 16) by lia.
    pose proof (signed_range 16 (le_value bs) ltac:(lia) ltac:(lia)) as S.
    rewrite (signed_sign_extend 16) in S by lia.
    repeat split.
    + now apply fp16_widening_exact.
    + apply float_of_int16_exact. cbn in S. lia.
  - change (256 ^ Z.of_nat 1) with 256 in R.
    rewrite (signed_sign_extend 8) by lia.
    pose proof (signed_range 8 (le_value bs) ltac:(lia) ltac:(lia)) as S.
    rewrite (signed_sign_extend 8) in S by lia.
    repeat split. apply float_of_int16_exact. cbn in S. lia.
Qed.

Lemma decoder_cases_witness :
  bytes_at (data f32_2x3) 4 4 = Some [0; 0; 0; 64] /\
  decode_element GGML_TYPE_F32 (data f32_2x3) None 4 = Ok (F32 0x40000000) /\
  bytes_at (data f32_2x3) 6 2 = Some [0; 64] /\
  decode_element GGML_TYPE_F16 (data f32_2x3) None 6 = Ok (F32 0x40000000) /\
  bytes_at (data f32_2x3) 18 1 = Some [160] /\
  decode_element GGML_TYPE_I8 (data f32_2x3) None 18 = Ok (F32 0xc2c00000).
Proof.
  split; [reflexivity|]. split.
  { exact (proj1 (proj1 (decoder_cases (data f32_2x3) 4 [0; 0; 0; 64]) eq_refl)). }
  split; [reflexivity|]. split.
  { exact (proj1 (proj1 (proj2 (decoder_cases (data f32_2x3) 6 [0; 64]))
                    eq_refl)). }
  split; [reflexivity|].
  exact (proj1 (proj2 (proj2 (decoder_cases (data f32_2x3) 18 [160])) eq_refl)).
Defined.

(* ================================================================= *)
(** * Further properties of the program *)

(** ** The text of a shape *)

Lemma append_assoc (a b c : string) :
  ((a ++ b) ++ c)%string = (a ++ (b ++ c))%string.
Proof.
  induction a as [|x a IH]; [reflexivity|]. cbn [append]. now rewrite IH.
Qed.

(** The text is the four numbers in decimal between braces, separated by a
    comma and a space. *)
Lemma ggml_ne_string_format (a b c d : Z) :
  ggml_ne_string (Dims a b c d)
  = ("{" ++ to_string a ++ ", " ++ to_string b ++ ", " ++ to_string c ++ ", "
     ++ to_string d ++ "}")%string.
Proof.
  unfold ggml_ne_string. cbn [ggml_ne_string_loop GGML_MAX_DIMS dim d0 d1 d2 d3
                              Nat.add Nat.ltb Nat.leb].
  now rewrite !append_assoc.
Qed.

Lemma lacks_uint (c : ascii) (d : Decimal.uint) :
  lacks c "0123456789" = true -> lacks c (NilEmpty.string_of_uint d) = true.
Proof.
  intros H. cbn [lacks] in H.
  repeat (apply andb_true_iff in H; destruct H as [? H]).
  induction d; cbn [NilEmpty.string_of_uint lacks]; [reflexivity|..];
    apply andb_true_iff; split; assumption.
Qed.

(** The decimal text of an integer has digits and a minus sign only. *)
Lemma lacks_to_string (c : ascii) (n : Z) :
  lacks c "-0123456789" = true -> lacks c (to_string n) = true.
Proof.
  intros H. cbn [lacks] in H. apply andb_true_iff in H as [Hm H].
  assert (forall d, lacks c (NilZero.string_of_uint d) = true) as U.
  { intros d. pose proof (lacks_uint c d H) as L.
    destruct d; try exact L. cbn [NilZero.string_of_uint].
    apply (lacks_uint c (Decimal.D0 Decimal.Nil) H). }
  unfold to_string. destruct (Z.to_int n) as [d|d];
    cbn [NilZero.string_of_int lacks]; [apply U|].
  apply andb_true_iff. split; [exact Hm|apply U].
Qed.

Lemma append_sep_inj (c : ascii) (s1 : string) :
  forall s2 r1 r2,
    lacks c s1 = true -> lacks c s2 = true ->
    (s1 ++ String c r1)%string = (s2 ++ String c r2)%string ->
    s1 = s2 /\ r1 = r2.
Proof.
  induction s1 as [|a s1 IH]; intros [|b s2] r1 r2 L1 L2 E;
    cbn [append lacks] in *.
  - injection E as <-. auto.
  - injection E as <- _. rewrite Ascii.eqb_refl in L2. discriminate.
  - injection E as -> _. rewrite Ascii.eqb_refl in L1. discriminate.
  - injection E as <- E.
    apply andb_true_iff in L1 as [_ L1]. apply andb_true_iff in L2 as [_ L2].
    destruct (IH _ _ _ L1 L2 E) as [-> ->]. auto.
Qed.

Lemma to_string_inj (n m : Z) : to_string n = to_string m -> n = m.
Proof.
  unfold to_string. intros E. apply DecimalZ.to_int_inj.
  assert (forall z, NilZero.int_of_string (NilZero.string_of_int (Z.to_int z))
                    = Some (Z.to_int z)) as R.
  { intros z. apply NilZero.isi; destruct z; cbn; try discriminate;
      intros H; injection H; apply DecimalPos.Unsigned.to_uint_nonnil. }
  pose proof (R n) as Rn. rewrite E, R in Rn. now injection Rn.
Qed.

(** Two texts of that format are equal only for the same four numbers. *)
Lemma ne_text_inj (a0 a1 a2 a3 b0 b1 b2 b3 : Z) :
  ("{" ++ to_string a0 ++ ", " ++ to_string a1 ++ ", " ++ to_string a2 ++ ", "
   ++ to_string a3 ++ "}")%string
  = ("{" ++ to_string b0 ++ ", " ++ to_string b1 ++ ", " ++ to_string b2
     ++ ", " ++ to_string b3 ++ "}")%string ->
  a0 = b0 /\ a1 = b1 /\ a2 = b2 /\ a3 = b3.
Proof.
  cbn [append]. intros E. injection E as E.
  change (", " ++ ?x)%string with (String "," (String " " x)) in E.
  apply append_sep_inj in E as [E0 E];
    [|apply lacks_to_string; reflexivity..].
  injection E as E.
  change (", " ++ ?x)%string with (String "," (String " " x)) in E.
  apply append_sep_inj in E as [E1 E];
    [|apply lacks_to_string; reflexivity..].
  injection E as E.
  change (", " ++ ?x)%string with (String "," (String " " x)) in E.
  apply append_sep_inj in E as [E2 E];
    [|apply lacks_to_string; reflexivity..].
  injection E as E.
  apply append_sep_inj in E as [E3 _];
    [|apply lacks_to_string; reflexivity..].
  apply to_string_inj in E0, E1, E2, E3. auto.
Qed.

(** X1: the text of a shape or of a multi-index determines its four
    numbers: two that differ have different texts. *)
Theorem ggml_ne_string_inj (a b : dims) :
  ggml_ne_string a = ggml_ne_string b -> a = b.
Proof.
  destruct a as [a0 a1 a2 a3], b as [b0 b1 b2 b3].
  rewrite !ggml_ne_string_format. intros E.
  apply ne_text_inj in E as (-> & -> & -> & ->). reflexivity.
Qed.

Lemma ggml_ne_string_inj_witness :
  ggml_ne_string (Dims 1 2 0 0) = "{1, 2, 0, 0}"%string /\
  Dims 1 2 0 0 = Dims 1 2 0 0.
Proof.
  split; [reflexivity|].
  apply (ggml_ne_string_inj (Dims 1 2 0 0) (Dims 1 2 0 0)). reflexivity.
Defined.

(** ** The rows of the printer *)

Lemma map_fst_combine {A B : Type} (l : list A) :
  forall l' : list B, List.length l = List.length l' ->
                      map fst (combine l l') = l.
Proof.
  induction l as [|a l IH]; intros [|b l'] E; try discriminate E;
    [reflexivity|].
  cbn [combine map fst]. f_equal. apply IH. now injection E.
Qed.

(** X2: the rows that one call of the printer appends have pairwise
    different texts in the index column. *)
Theorem index_texts_distinct {api : ggml_api} (csv csv' : ofstream)
    (bytes : buffer) (id : Z) (t : ggml_tensor) :
  nonneg (ne t) -> is_open csv = true ->
  ggml_print_tensor_to_csv csv bytes id t = Ok csv' ->
  exists rows,
    lines csv' = lines csv ++ rows /\ NoDup (map line_index rows).
Proof.
  intros N O E. rewrite print_spec in E by assumption.
  apply bind_ok in E as (vs & Ev & E). injection E as <-.
  exists (rows_of id t vs). split; [now rewrite put_lines_open|].
  apply map_result_length in Ev.
  unfold rows_of. rewrite map_map. cbn [row_of line_index row_curr_ne].
  rewrite <- (map_map fst (fun k => Some (ggml_ne_string (nth_index (ne t) k)))).
  rewrite map_fst_combine by now symmetry.
  apply NoDup_map_NoDup_ForallPairs; [|apply NoDup_range].
  intros a b Ha Hb H. apply in_range in Ha, Hb.
  assert (forall x y : string, Some x = Some y -> x = y) as I
    by (intros x y [=]; assumption).
  apply I in H.
  destruct (nth_index (ne t) a) as [a0 a1 a2 a3] eqn:Ea.
  destruct (nth_index (ne t) b) as [b0 b1 b2 b3] eqn:Eb.
  rewrite !ggml_ne_string_format in H.
  apply ne_text_inj in H as (-> & -> & -> & ->).
  rewrite <- (element_index_nth_index (ne t) a N Ha).
  rewrite <- (element_index_nth_index (ne t) b N Hb). now rewrite Ea, Eb.
Qed.

Lemma f32_2x3_nonneg : nonneg (ne f32_2x3).
Proof. unfold nonneg, f32_2x3; cbn; lia. Qed.

Lemma index_texts_distinct_witness :
  exists csv' rows,
    ggml_print_tensor_to_csv (api := test_api) (Stream true [])
      (data f32_2x3) 0 f32_2x3 = Ok csv' /\
    lines csv' = [] ++ rows /\ NoDup (map line_index rows).
Proof.
  eexists.
  destruct (index_texts_distinct (api := test_api) (Stream true []) _
              (data f32_2x3) 0 f32_2x3 f32_2x3_nonneg eq_refl eq_refl)
    as (rows & L & D).
  exists rows. split; [reflexivity|]. split; assumption.
Defined.

Lemma fold_result_inv_in {A S : Type} (P : S -> Prop) (body : A -> S -> result S)
    (l : list A) :
  (forall a s s', In a l -> P s -> body a s = Ok s' -> P s') ->
  forall s s', P s -> fold_result body l s = Ok s' -> P s'.
Proof.
  induction l as [|a l IH]; intros B s s' H E; cbn [fold_result] in E.
  - now injection E as <-.
  - apply bind_ok in E as (s1 & E1 & E).
    apply (IH (fun a0 s0 s0' I => B a0 s0 s0' (or_intror I)) s1 s'); [|exact E].
    exact (B a s s1 (or_introl eq_refl) H E1).
Qed.

Lemma for_lt_inv_range {S : Type} (P : S -> Prop) (hi : Z)
    (body : Z -> S -> result S) :
  (forall i s s', 0 <= i < hi -> P s -> body i s = Ok s' -> P s') ->
  forall s s', P s -> for_lt hi body s = Ok s' -> P s'.
Proof.
  intros B s s' H E. rewrite for_lt_fold in E.
  refine (fold_result_inv_in P body (range hi) _ s s' H E).
  intros i s0 s0' I. apply B. now apply in_range.
Qed.

(** X3: whatever the shape, the strides and the bytes, every line that a
    call of the printer appends is a data row with the id it was given, the
    name, type, operation and shape of the tensor, and a multi-index below
    the shape. *)
Theorem rows_within_shape {api : ggml_api} (csv csv' : ofstream)
    (bytes : buffer) (id : Z) (t : ggml_tensor) :
  ggml_print_tensor_to_csv csv bytes id t = Ok csv' ->
  exists rows,
    csv' = put_lines csv rows /\
    Forall (fun l => exists idx v, l = row_of id t idx v /\ below idx (ne t))
           rows.
Proof.
  unfold ggml_print_tensor_to_csv. intros E0.
  apply bind_ok in E0 as (unq & _ & E0). revert E0.
  set (P := fun c =>
         exists rows,
           c = put_lines csv rows /\
           Forall (fun l => exists idx v,
                      l = row_of id t idx v /\ below idx (ne t)) rows).
  apply (for_lt_inv_range P); [|exists []; split; [reflexivity|constructor]].
  intros i3 s3 s3' R3 H3. apply (for_lt_inv_range P); [|exact H3].
  intros i2 s2 s2' R2 H2. apply (for_lt_inv_range P); [|exact H2].
  intros i1 s1 s1' R1 H1. apply (for_lt_inv_range P); [|exact H1].
  intros i0 s0 s0' R0 (rows & -> & F) E.
  unfold print_element in E. apply bind_ok in E as (v & _ & E).
  injection E as <-. eexists (rows ++ [_]). split.
  - rewrite put_lines_app. reflexivity.
  - apply Forall_app. split; [exact F|]. constructor; [|constructor].
    exists (Dims i0 i1 i2 i3), v. split; [reflexivity|].
    unfold below. cbn [d0 d1 d2 d3 dim] in *. auto.
Qed.

Lemma rows_within_shape_witness :
  exists csv' rows,
    ggml_print_tensor_to_csv (api := test_api) (Stream true [])
      (data f32_2x3) 7 f32_2x3 = Ok csv' /\
    csv' = put_lines (Stream true []) rows /\ List.length rows = 6%nat.
Proof.
  eexists.
  destruct (rows_within_shape (api := test_api) (Stream true []) _
              (data f32_2x3) 7 f32_2x3 eq_refl) as (rows & E & _).
  exists rows. split; [reflexivity|]. split; [exact E|].
  apply (f_equal (fun c => List.length (lines c))) in E.
  rewrite put_lines_open in E by reflexivity. cbn [lines app] in E.
  symmetry. exact E.
Defined.

Lemma for_lt_skip {S : Type} (hi : Z) (body : Z -> S -> result S) (s : S) :
  (forall i s0, body i s0 = Ok s0) -> for_lt hi body s = Ok s.
Proof.
  intros B. unfold for_lt. generalize 0 as i.
  induction (Z.to_nat hi) as [|n IH]; intros i; cbn [for_loop]; [reflexivity|].
  rewrite B. cbn [bind]. apply IH.
Qed.

Lemma for_lt_nonpos {S : Type} (hi : Z) (body : Z -> S -> result S) (s : S) :
  hi <= 0 -> for_lt hi body s = Ok s.
Proof.
  intros H. unfold for_lt. replace (Z.to_nat hi) with 0%nat by lia. reflexivity.
Qed.

(** With an extent that is zero or negative the loop nest has no iteration:
    the printer does what the allocation of line 59 does and no more. *)
Lemma print_skips {api : ggml_api} (csv : ofstream) (bytes : buffer) (id : Z)
    (t : ggml_tensor) :
  d0 (ne t) <= 0 \/ d1 (ne t) <= 0 \/ d2 (ne t) <= 0 \/ d3 (ne t) <= 0 ->
  ggml_print_tensor_to_csv csv bytes id t
  = (unquantized_data <- dequantize t bytes ;; Ok csv).
Proof.
  unfold ggml_print_tensor_to_csv. cbn [dim]. intros H.
  destruct (dequantize t bytes) as [unq|e]; [|reflexivity]. cbn [bind].
  destruct H as [H|[H|[H|H]]].
  - apply for_lt_skip. intros i3 s3. apply for_lt_skip. intros i2 s2.
    apply for_lt_skip. intros i1 s1. now apply for_lt_nonpos.
  - apply for_lt_skip. intros i3 s3. apply for_lt_skip. intros i2 s2.
    now apply for_lt_nonpos.
  - apply for_lt_skip. intros i3 s3. now apply for_lt_nonpos.
  - now apply for_lt_nonpos.
Qed.

(** X4: a tensor with an extent that is zero or negative gets no row and no
    element of it is decoded, whatever the strides and the bytes: the
    printer returns the stream as it is, also for a type the decoder does
    not support.  The one exception is a block-quantized type with a
    negative number of elements: there the allocation of line 59 throws
    [std::bad_array_new_length] and the process ends.  (A block-quantized
    type with a positive number of elements, which takes two negative
    extents, is left out: lines 59-60 first allocate and fill that many
    floats.) *)
Theorem print_empty_tensor {api : ggml_api} (csv : ofstream) (bytes : buffer)
    (id : Z) (t : ggml_tensor) :
  d0 (ne t) <= 0 \/ d1 (ne t) <= 0 \/ d2 (ne t) <= 0 \/ d3 (ne t) <= 0 ->
  (ggml_is_quantized (type t) = true -> ggml_nelements t <= 0) ->
  ggml_print_tensor_to_csv csv bytes id t
  = if ggml_is_quantized (type t) && (ggml_nelements t <? 0)
    then Fault (uncaught_exception "std::bad_array_new_length")
    else Ok csv.
Proof.
  intros H _. rewrite (print_skips csv bytes id t H). unfold dequantize.
  destruct (ggml_is_quantized (type t)); [|reflexivity].
  destruct (ggml_nelements t <? 0); reflexivity.
Qed.

Lemma print_empty_tensor_witness :
  ggml_print_tensor_to_csv (api := test_api) (Stream true []) [] 0
    (Tensor (GGML_TYPE_OTHER 27) true (Dims 4 0 2 1) (Dims 8 32 32 64) []
            "l_out-0")
  = Ok (Stream true []) /\
  ggml_print_tensor_to_csv (api := test_api) (Stream true []) [] 0
    (Tensor (GGML_TYPE_Q 2) true (Dims 32 0 1 1) (Dims 18 18 18 18) []
            "l_out-0")
  = Ok (Stream true []) /\
  ggml_print_tensor_to_csv (api := test_api) (Stream true []) [] 0
    (Tensor (GGML_TYPE_Q 2) true (Dims 32 (-1) 1 1) (Dims 18 18 18 18) []
            "l_out-0")
  = Fault (uncaught_exception "std::bad_array_new_length").
Proof.
  split; [|split].
  - apply (print_empty_tensor (api := test_api) (Stream true []) [] 0
             (Tensor (GGML_TYPE_OTHER 27) true (Dims 4 0 2 1)
                     (Dims 8 32 32 64) [] "l_out-0")).
    + right. left. cbn. lia.
    + discriminate.
  - apply (print_empty_tensor (api := test_api) (Stream true []) [] 0
             (Tensor (GGML_TYPE_Q 2) true (Dims 32 0 1 1)
                     (Dims 18 18 18 18) [] "l_out-0")).
    + right. left. cbn. lia.
    + intros _. vm_compute. discriminate.
  - apply (print_empty_tensor (api := test_api) (Stream true []) [] 0
             (Tensor (GGML_TYPE_Q 2) true (Dims 32 (-1) 1 1)
                     (Dims 18 18 18 18) [] "l_out-0")).
    + right. left. cbn. lia.
    + intros _. vm_compute. discriminate.
Defined.

(** ** The faults of the printer *)

Lemma map_result_fault {A B : Type} (f : A -> result B) (l : list A) (e : fault) :
  map_result f l = Fault e -> exists a, In a l /\ f a = Fault e.
Proof.
  induction l as [|a l IH]; cbn [map_result]; [discriminate|].
  destruct (f a) as [b|e'] eqn:Ea; cbn [bind].
  - destruct (map_result f l) as [bs|e'']; cbn [bind]; [discriminate|].
    intros E. injection E as ->. destruct (IH eq_refl) as (a' & I & Ea').
    exists a'. split; [now right|exact Ea'].
  - intros E. injection E as ->. exists a. split; [now left|exact Ea].
Qed.

Lemma decode_fatal (type : ggml_type) (bytes : buffer)
    (unq : option (list float32)) (i : Z) (msg : string) :
  decode_element type bytes unq i = Fault (fatal_error msg) ->
  unq = None /\ decodable type = false /\ msg = "fatal error"%string.
Proof.
  unfold decode_element. destruct unq as [u|].
  - destruct (i <? 0); [discriminate|].
    destruct (nth_error u (Z.to_nat i)); discriminate.
  - destruct type; cbn [decodable];
      try (destruct (load_le _ bytes i); discriminate).
    + intros E. injection E as <-. auto.
    + intros E. injection E as <-. auto.
Qed.

(** X5: for non-negative extents the printer ends the process with
    [GGML_ABORT] exactly when the type is neither block-quantized nor one of
    the five decodable ones and the tensor has an element; the message is
    "fatal error". *)
Theorem print_fatal_iff {api : ggml_api} (csv : ofstream) (bytes : buffer)
    (id : Z) (t : ggml_tensor) (msg : string) :
  nonneg (ne t) ->
  (ggml_print_tensor_to_csv csv bytes id t = Fault (fatal_error msg) <->
   msg = "fatal error"%string /\ unsupported (type t) = true /\
   0 < ggml_nelements t).
Proof.
  intros N. split.
  - rewrite print_spec by assumption.
    destruct (map_result _ _) as [vs|e] eqn:E; cbn [bind]; [discriminate|].
    intros F. injection F as ->.
    apply map_result_fault in E as (k & Hk & E). apply in_range in Hk.
    unfold value_of in E. apply decode_fatal in E as (U & D & ->).
    split; [reflexivity|]. split; [|lia].
    unfold unsupported. rewrite D. unfold unquantized_of in U.
    destruct (ggml_is_quantized (type t)); [discriminate|reflexivity].
  - intros (-> & U & P). unfold unsupported in U.
    destruct (type t) as [| | | | |tag|tag] eqn:T; try discriminate U.
    now apply (print_unsupported csv bytes id t tag).
Qed.

Lemma print_fatal_iff_witness :
  ggml_print_tensor_to_csv (api := test_api) (Stream true [])
    [x01; x00; x00; x00; x00; x00; x00; x00] 0
    (Tensor (GGML_TYPE_OTHER 27) true (Dims 1 1 1 1) (Dims 8 8 8 8)
            [x01; x00; x00; x00; x00; x00; x00; x00] "l_out-0")
  = Fault (fatal_error "fatal error").
Proof.
  apply (print_fatal_iff (api := test_api)).
  - unfold nonneg. cbn. lia.
  - split; [reflexivity|]. split; [reflexivity|]. reflexivity.
Defined.

(** X6: the stream has no part in what the printer decodes.  On a stream
    that is not open a call that returns leaves the stream as it is; and for
    non-negative extents the printer faults on one stream exactly when it
    faults on any other, with the same fault. *)
Theorem print_ignores_stream {api : ggml_api} (csv : ofstream)
    (bytes : buffer) (id : Z) (t : ggml_tensor) :
  (is_open csv = false ->
   forall csv', ggml_print_tensor_to_csv csv bytes id t = Ok csv' ->
                csv' = csv) /\
  (nonneg (ne t) ->
   forall csv2 id2 e,
     ggml_print_tensor_to_csv csv bytes id t = Fault e <->
     ggml_print_tensor_to_csv csv2 bytes id2 t = Fault e).
Proof.
  split.
  - intros O csv' E. apply print_rows_inv in E as (rows & -> & _).
    now apply put_lines_closed.
  - intros N csv2 id2 e. rewrite !print_spec by assumption.
    destruct (map_result _ _) as [vs|e']; cbn [bind];
      split; intros E; try discriminate E; exact E.
Qed.

Lemma print_ignores_stream_witness :
  ggml_print_tensor_to_csv (api := test_api) (Stream false [])
    (data f32_2x3) 0 f32_2x3 = Ok (Stream false []) /\
  ggml_print_tensor_to_csv (api := test_api) (Stream false [])
    (data q4_0_row) 5 q4_0_row = Fault undefined_behaviour.
Proof.
  split.
  - destruct (ggml_print_tensor_to_csv (api := test_api) (Stream false [])
                (data f32_2x3) 0 f32_2x3) as [csv'|e] eqn:E.
    + f_equal.
      exact (proj1 (print_ignores_stream (api := test_api) (Stream false [])
                      (data f32_2x3) 0 f32_2x3) eq_refl csv' E).
    + vm_compute in E. discriminate E.
  - apply (proj2 (print_ignores_stream (api := test_api) (Stream true [])
                    (data q4_0_row) 0 q4_0_row)).
    + unfold nonneg. cbn. lia.
    + vm_compute. reflexivity.
Defined.

(** ** The Ask phase, further *)

(** X7: the Ask phase has no effect and looks at nothing but the name of the
    tensor and the architecture of the model: it returns the session it was
    given, and two invocations on tensors of the same name, in sessions with
    the same [g_model], give the same answer or the same fault. *)
Theorem ask_is_pure {api : ggml_api} (growth : Z -> Z -> Z -> Z)
    (t1 t2 : ggml_tensor) (s1 s2 : session) :
  name t1 = name t2 -> g_model s1 = g_model s2 ->
  match ggml_eval_layer_output growth t1 true s1 with
  | Ok (r, s') =>
      s' = s1 /\ ggml_eval_layer_output growth t2 true s2 = Ok (r, s2)
  | Fault e => ggml_eval_layer_output growth t2 true s2 = Fault e
  end.
Proof.
  intros Hn Hg. unfold ggml_eval_layer_output. rewrite <- Hn, <- Hg.
  destruct (strncmp (name t1) "l_out" 5 =? 0); [auto|].
  destruct (g_model s1); cbn [of_option bind]; [|reflexivity].
  destruct (_ && _); auto.
Qed.

Lemma ask_is_pure_witness :
  ggml_eval_layer_output (api := test_api) exact_growth f32_2x3 true
    (a_session (LLM_ARCH_OTHER 3))
  = Ok (true, a_session (LLM_ARCH_OTHER 3)).
Proof.
  pose proof (ask_is_pure (api := test_api) exact_growth
                (named "l_out-1") f32_2x3
                (a_session (LLM_ARCH_OTHER 3)) (a_session (LLM_ARCH_OTHER 3))
                eq_refl eq_refl) as H.
  cbv beta iota in H.
  change (ggml_eval_layer_output (api := test_api) exact_growth
            (named "l_out-1") true (a_session (LLM_ARCH_OTHER 3)))
    with (Ok (A := bool * session) (true, a_session (LLM_ARCH_OTHER 3))) in H.
  exact (proj2 H).
Defined.

(** X8: before [g_model] is set the Ask phase still accepts a name with the
    prefix [l_out], without reading the model; for any other name it reads
    the architecture through the null pointer. *)
Theorem ask_without_model {api : ggml_api} (growth : Z -> Z -> Z -> Z)
    (t : ggml_tensor) (s : session) :
  g_model s = None ->
  ggml_eval_layer_output growth t true s
  = if String.prefix "l_out" (name t) then Ok (true, s)
    else Fault undefined_behaviour.
Proof.
  intros G. unfold ggml_eval_layer_output. rewrite G.
  pose proof (strncmp_prefix "l_out" eq_refl (name t)) as P.
  cbn [String.length] in P. rewrite P.
  destruct (String.prefix "l_out" (name t)); reflexivity.
Qed.

Lemma ask_without_model_witness :
  ggml_eval_layer_output (api := test_api) exact_growth (named "attn_norm")
    true initial_session = Fault undefined_behaviour /\
  ggml_eval_layer_output (api := test_api) exact_growth (named "l_out-0")
    true initial_session = Ok (true, initial_session).
Proof.
  split.
  - exact (ask_without_model (api := test_api) exact_growth
             (named "attn_norm") initial_session eq_refl).
  - exact (ask_without_model (api := test_api) exact_growth
             (named "l_out-0") initial_session eq_refl).
Defined.

(** X9: what the Ask phase answers once the model is set.  For every
    architecture but WAVTOKENIZER_DEC: true exactly for the names with the
    prefix [l_out].  For WAVTOKENIZER_DEC: true exactly for the names without
    the prefix [convnext_out]. *)
Theorem ask_decision {api : ggml_api} (growth : Z -> Z -> Z -> Z)
    (t : ggml_tensor) (s : session) (arch : llm_arch) :
  g_model s = Some arch ->
  ggml_eval_layer_output growth t true s
  = Ok (match arch with
        | LLM_ARCH_WAVTOKENIZER_DEC =>
            negb (String.prefix "convnext_out" (name t))
        | LLM_ARCH_OTHER _ => String.prefix "l_out" (name t)
        end, s).
Proof.
  intros G. destruct arch as [|tag].
  - now apply ask_wavtokenizer.
  - now apply (ask_other_arch growth t s tag).
Qed.

Lemma ask_decision_witness :
  ggml_eval_layer_output (api := test_api) exact_growth (named "posnet_out-1")
    true (a_session (LLM_ARCH_OTHER 5))
  = Ok (false, a_session (LLM_ARCH_OTHER 5)) /\
  ggml_eval_layer_output (api := test_api) exact_growth (named "posnet_out-1")
    true (a_session LLM_ARCH_WAVTOKENIZER_DEC)
  = Ok (true, a_session LLM_ARCH_WAVTOKENIZER_DEC).
Proof.
  split.
  - exact (ask_decision (api := test_api) exact_growth (named "posnet_out-1")
             (a_session (LLM_ARCH_OTHER 5)) (LLM_ARCH_OTHER 5) eq_refl).
  - exact (ask_decision (api := test_api) exact_growth (named "posnet_out-1")
             (a_session LLM_ARCH_WAVTOKENIZER_DEC) LLM_ARCH_WAVTOKENIZER_DEC
             eq_refl).
Defined.

(** ** The Deliver phase, further *)

(** X10: a Deliver that returns returns true (it never stops the graph),
    leaves [g_model] and the state of the stream as they are, and adds data
    rows after the lines already written, which it keeps. *)
Theorem deliver_frame {api : ggml_api} (growth : Z -> Z -> Z -> Z)
    (t : ggml_tensor) (s : session) (r : bool) (s' : session) :
  ggml_eval_layer_output growth t false s = Ok (r, s') ->
  r = true /\
  g_model s' = g_model s /\
  is_open (out_csv s') = is_open (out_csv s) /\
  exists rows,
    lines (out_csv s') = lines (out_csv s) ++ rows /\
    Forall (fun l => is_data_line l = true) rows.
Proof.
  intros E. destruct (deliver_inv growth _ _ _ _ E) as (-> & G & _).
  destruct (deliver_rows growth _ _ _ _ E) as (rows & O & F).
  split; [reflexivity|]. split; [exact G|]. rewrite O.
  destruct (is_open (out_csv s)) eqn:Op.
  - rewrite put_lines_open by assumption. split; [reflexivity|].
    exists rows. split; [reflexivity|].
    apply Forall_forall. intros l Hl.
    rewrite Forall_forall in F. specialize (F l Hl).
    destruct l; [discriminate F|reflexivity].
  - rewrite put_lines_closed by assumption. split; [exact Op|].
    exists []. split; [now rewrite app_nil_r|constructor].
Qed.

Lemma deliver_frame_witness :
  exists s' rows,
    ggml_eval_layer_output (api := test_api) exact_growth f32_2x3_device false
      (a_session (LLM_ARCH_OTHER 0)) = Ok (true, s') /\
    lines (out_csv s') = [] ++ rows /\
    Forall (fun l => is_data_line l = true) rows.
Proof.
  eexists.
  destruct (deliver_frame (api := test_api) exact_growth f32_2x3_device
              (a_session (LLM_ARCH_OTHER 0)) true _ eq_refl)
    as (_ & _ & _ & rows & L & F).
  exists rows. split; [reflexivity|]. split; assumption.
Defined.

(** X11: zero-copy.  A run of the scheduler over nodes that are all
    host-addressable never touches the scratch vector. *)
Theorem host_run_leaves_scratch {api : ggml_api} (growth : Z -> Z -> Z -> Z)
    (nodes : list ggml_tensor) :
  Forall (fun t => buffer_is_host t = true) nodes ->
  forall s s', sched_eval growth nodes s = Ok s' -> cb_data s' = cb_data s.
Proof.
  induction 1 as [|t rest H _ IH]; intros s s' E.
  - now apply sched_eval_nil_inv in E as ->.
  - apply sched_eval_cons_inv in E as [[_ E]|[_ (s1 & Ed & E)]].
    + now apply IH.
    + rewrite (IH _ _ E).
      pose proof (deliver_scratch growth _ _ _ _ Ed) as D.
      now rewrite H in D.
Qed.

Lemma host_run_leaves_scratch_witness :
  exists s',
    sched_eval (api := test_api) exact_growth
      [named "l_out-0"; named "attn_norm"; q4_0_row; f32_2x3]
      (a_session (LLM_ARCH_OTHER 0)) = Ok s' /\
    cb_data s' = CallbackData (Vector 0 []).
Proof.
  eexists. split; [reflexivity|].
  refine (host_run_leaves_scratch (api := test_api) exact_growth
            [named "l_out-0"; named "attn_norm"; q4_0_row; f32_2x3] _
            (a_session (LLM_ARCH_OTHER 0)) _ eq_refl).
  repeat constructor.
Defined.

(** ** Runs of [main] *)

Section Runs.

Context {api : ggml_api} (growth : Z -> Z -> Z -> Z).

Lemma expected_rows_g_model (nodes : list ggml_tensor) (s1 s2 : session) :
  g_model s1 = g_model s2 ->
  expected_rows growth s1 nodes = expected_rows growth s2 nodes.
Proof.
  intros G. induction nodes as [|t rest IH]; [reflexivity|].
  cbn [expected_rows]. now rewrite IH, (accepts_g_model growth t s1 s2 G).
Qed.

(** The Deliver of a deliverable tensor to an open stream adds as many lines
    as the tensor has elements, none if it is quantized. *)
Lemma deliver_lines_count (t : ggml_tensor) (s : session) :
  deliverable t -> is_open (out_csv s) = true ->
  exists s',
    ggml_eval_layer_output growth t false s = Ok (true, s') /\
    g_model s' = g_model s /\
    is_open (out_csv s') = true /\
    Z.of_nat (List.length (lines (out_csv s')))
    = Z.of_nat (List.length (lines (out_csv s)))
      + (if negb (ggml_is_quantized (type t)) then ggml_nelements t else 0).
Proof.
  intros [C [Q|(D & N & B)]] O.
  - rewrite (deliver_eq growth t s C), Q. cbn [bind negb].
    eexists. split; [reflexivity|]. cbn [delivered out_csv g_model].
    repeat split; [exact O|lia].
  - destruct (print_total (out_csv s) (delivered_bytes t) (id s) t D N B)
      as (vs & L & _ & P).
    rewrite (deliver_eq growth t s C), P.
    assert (ggml_is_quantized (type t) = false) as ->
      by (destruct (type t); try discriminate D; reflexivity).
    cbn [bind negb]. eexists. split; [reflexivity|].
    cbn [delivered out_csv g_model]. rewrite put_lines_open by assumption.
    cbn [is_open lines]. repeat split.
    rewrite length_app, length_rows_of by assumption.
    assert (0 <= ggml_nelements t); [|lia].
    unfold ggml_nelements. destruct N as (? & ? & ? & ?).
    repeat apply Z.mul_nonneg_nonneg; assumption.
Qed.

Lemma sched_lines_count (nodes : list ggml_tensor) :
  Forall deliverable nodes ->
  forall s, g_model s <> None -> is_open (out_csv s) = true ->
    exists s',
      sched_eval growth nodes s = Ok s' /\
      Z.of_nat (List.length (lines (out_csv s')))
      = Z.of_nat (List.length (lines (out_csv s)))
        + expected_rows growth s nodes.
Proof.
  induction 1 as [|t rest D _ IH]; intros s G O.
  - exists s. split; [reflexivity|]. cbn [expected_rows]. lia.
  - cbn [sched_eval expected_rows].
    destruct (ask_total growth t s G) as [r Ea].
    unfold accepts. rewrite Ea. cbn [bind fst snd]. destruct r.
    + destruct (deliver_lines_count t s D O) as (s1 & -> & G1 & O1 & L1).
      cbn [bind fst snd].
      destruct (IH s1) as (s' & -> & L'); [now rewrite G1|exact O1|].
      exists s'. split; [reflexivity|].
      rewrite (expected_rows_g_model rest s1 s G1) in L'.
      cbn [andb]. lia.
    + destruct (IH s G O) as (s' & -> & L'). exists s'.
      split; [reflexivity|]. cbn [andb]. lia.
Qed.

End Runs.

(** X13: how a run of [main] that returns ends.  The exit code is 0 exactly
    when the command line was accepted, the model loaded and [llama_decode]
    returned 0, and 1 otherwise; the errors logged are none, the one of the
    model or the one of [llama_decode] accordingly.  When the command line is
    refused nothing has been opened or run; when the model fails to load the
    stream has been opened and the header written already.  The status of
    [llama_decode] changes the exit code and the log only: the rows written
    and the rest of the final state stay. *)
Theorem main_exit_and_log {api : ggml_api} (growth : Z -> Z -> Z -> Z)
    (env : environment) (o : outcome) :
  main growth env = Ok o ->
  exit_code o
  = (if params_parse_ok env
        && (match init_model env with Some _ => true | None => false end)
        && (llama_decode_status env =? 0)
     then 0 else 1) /\
  errors o
  = (if negb (params_parse_ok env) then []
     else match init_model env with
          | None => ["main : failed to init"%string]
          | Some _ => if llama_decode_status env =? 0 then []
                      else ["run : failed to eval"%string]
          end) /\
  (params_parse_ok env = false -> final o = initial_session) /\
  (params_parse_ok env = true -> init_model env = None ->
   final o = {| out_csv := init_csv_columns (Stream (out_file_opens env) []);
                g_model := None; id := 0;
                cb_data := CallbackData (Vector 0 []) |}) /\
  (forall status,
     exists o', main growth (with_status env status) = Ok o' /\
                final o' = final o).
Proof.
  intros E. pose proof E as M.
  apply main_inv in E
    as [[Pf ->]|[(Pt & In & ->)|(Pt & arch & s' & In & E & ->)]].
  - rewrite Pf. cbn [andb negb exit_code errors final].
    repeat split; [discriminate|].
    intros status. exists (Outcome 1 initial_session []).
    unfold main, with_status. cbn [params_parse_ok]. rewrite Pf. auto.
  - rewrite Pt, In. cbn [andb negb exit_code errors final].
    repeat split; [discriminate|].
    intros status. eexists. unfold main, with_status.
    cbn [params_parse_ok init_model out_file_opens]. rewrite Pt, In.
    cbn [negb]. split; reflexivity.
  - rewrite Pt, In. cbn [andb negb].
    assert (forall status,
              exists o', main growth (with_status env status) = Ok o' /\
                         final o' = s') as W.
    { intros status. unfold main, with_status, run.
      cbn [params_parse_ok init_model out_file_opens graph_nodes
           llama_decode_status].
      rewrite Pt, In. cbn [negb]. unfold run_session in E.
      cbn [initial_session out_csv g_model id cb_data]. rewrite E.
      cbn [bind]. destruct (status =? 0); cbn [negb bind];
        eexists; split; reflexivity. }
    destruct (llama_decode_status env =? 0); cbn [exit_code errors final];
      repeat split; try discriminate; try congruence; exact W.
Qed.

Lemma main_exit_and_log_witness :
  exists o,
    main (api := test_api) exact_growth
      (with_status (example_env true) 1) = Ok o /\
    exit_code o = 1 /\ errors o = ["run : failed to eval"%string].
Proof.
  eexists. split; [reflexivity|].
  destruct (main_exit_and_log (api := test_api) exact_growth
              (with_status (example_env true) 1) _ eq_refl)
    as (X & L & _).
  split; [exact X|exact L].
Defined.

(** X14: in a run that returns with the command line accepted and the
    output file open, the first line of the output is the header and every
    line after it is a data row. *)
Theorem header_comes_first {api : ggml_api} (growth : Z -> Z -> Z -> Z)
    (env : environment) (o : outcome) :
  main growth env = Ok o ->
  params_parse_ok env = true -> out_file_opens env = true ->
  exists rows,
    lines (out_csv (final o))
    = header_line "ID,name,type,operation,full_ne,curr_ne,value" :: rows /\
    Forall (fun l => is_data_line l = true) rows.
Proof.
  intros E Pt Op.
  apply main_inv in E
    as [[Pf _]|[(_ & In & ->)|(_ & arch & s' & In & E & ->)]];
    [congruence| |].
  - cbn [final out_csv]. rewrite Op. exists []. split; [reflexivity|constructor].
  - destruct (sched_eval_rows growth (graph_nodes env) (run_session env arch) s')
      as (groups & O & _ & J); [cbn; lia|exact E|].
    exists (List.concat groups). split.
    + destruct (llama_decode_status env =? 0); cbn [final]; rewrite O;
        unfold run_session; cbn [out_csv]; rewrite Op;
        rewrite put_lines_open by reflexivity; reflexivity.
    + apply Forall_forall. intros l Hl.
      apply in_concat in Hl as (g & Hg & Hl).
      apply In_nth_error in Hg as (j & Hj).
      specialize (J j g Hj). rewrite Forall_forall in J.
      specialize (J l Hl). destruct l; [discriminate J|reflexivity].
Qed.

Lemma header_comes_first_witness :
  exists o rows,
    main (api := test_api) exact_growth (example_env true) = Ok o /\
    lines (out_csv (final o))
    = header_line "ID,name,type,operation,full_ne,curr_ne,value" :: rows /\
    Forall (fun l => is_data_line l = true) rows.
Proof.
  eexists.
  destruct (header_comes_first (api := test_api) exact_growth
              (example_env true) _ eq_refl eq_refl eq_refl) as (rows & L & F).
  exists rows. split; [reflexivity|]. split; assumption.
Defined.

Lemma named_in_bounds (n : string) : in_bounds (named n) 4.
Proof. unfold named. concrete_in_bounds. Qed.

Lemma named_deliverable (n : string) : deliverable (api := test_api) (named n).
Proof.
  split; [intros H; discriminate H|]. right.
  split; [reflexivity|]. split; [unfold nonneg; cbn; lia|].
  exact (named_in_bounds n).
Qed.

Lemma example_env_deliverable (opens : bool) :
  Forall (deliverable (api := test_api)) (graph_nodes (example_env opens)).
Proof.
  cbn [graph_nodes example_env].
  repeat apply Forall_cons; try apply Forall_nil;
    try apply named_deliverable.
  - split; [intros H; discriminate H|]. left. reflexivity.
  - split; [intros H; discriminate H|]. right.
    split; [reflexivity|]. split; [exact f32_2x3_nonneg|].
    exact f32_2x3_in_bounds.
Qed.

(** ** The session over a run *)

(** X16: after a run of the scheduler the scratch vector has room for every
    accepted node that had to be copied: its capacity is at least the
    largest of their byte footprints. *)
Theorem scratch_covers_copied {api : ggml_api} (growth : Z -> Z -> Z -> Z)
    (nodes : list ggml_tensor) :
  forall s s',
    vector_ok (scratch s) ->
    sched_eval growth nodes s = Ok s' ->
    forall t, In t nodes -> accepts growth s t = true ->
              buffer_is_host t = false ->
              Z.of_N (ggml_nbytes t) <= capacity (scratch s').
Proof.
  induction nodes as [|t0 rest IH]; intros s s' V E t I A H; [destruct I|].
  apply sched_eval_cons_inv in E as [[A0 E]|[A0 (s1 & Ed & E)]].
  - destruct I as [->|I]; [congruence|]. now apply (IH s s' V E t).
  - destruct (callback_step_scratch growth s s1 V
                (callback_returns growth _ _ _ _ _ Ed)) as [V1 _].
    destruct (deliver_inv growth _ _ _ _ Ed) as (_ & G & _).
    destruct I as [->|I].
    + pose proof (deliver_scratch growth _ _ _ _ Ed) as D. rewrite H in D.
      destruct D as [_ Cp].
      pose proof (resize_room growth (scratch s) (Z.of_N (ggml_nbytes t)) V).
      apply sched_eval_steps in E.
      destruct (callback_steps_scratch growth _ _ E V1) as [_ L]. lia.
    + apply (IH s1 s' V1 E t I); [|exact H].
      now rewrite (accepts_g_model growth t s1 s G).
Qed.

Lemma scratch_covers_copied_witness :
  exists s',
    sched_eval (api := test_api) exact_growth
      [f32_2x3_device; named "l_out-0"] (a_session (LLM_ARCH_OTHER 0))
    = Ok s' /\
    24 <= capacity (scratch s').
Proof.
  eexists. split; [reflexivity|].
  refine (scratch_covers_copied (api := test_api) exact_growth
            [f32_2x3_device; named "l_out-0"] (a_session (LLM_ARCH_OTHER 0))
            _ _ eq_refl f32_2x3_device (or_introl eq_refl) eq_refl eq_refl).
  unfold vector_ok, size. cbn. lia.
Defined.

(** ** The rows of a run, node by node *)

Lemma nonneg_dec (a : dims) :
  nonneg a \/ (d0 a <= 0 \/ d1 a <= 0 \/ d2 a <= 0 \/ d3 a <= 0).
Proof. unfold nonneg. lia. Qed.

(** What the printer adds to a stream is what it writes to an empty one. *)
Lemma print_on_empty {api : ggml_api} (csv csv' : ofstream) (bytes : buffer)
    (id : Z) (t : ggml_tensor) :
  ggml_print_tensor_to_csv csv bytes id t = Ok csv' ->
  exists rows,
    csv' = put_lines csv rows /\
    ggml_print_tensor_to_csv (Stream true []) bytes id t = Ok (Stream true rows).
Proof.
  intros E. destruct (nonneg_dec (ne t)) as [N|H].
  - rewrite print_spec in * by assumption.
    apply bind_ok in E as (vs & -> & E). injection E as <-.
    exists (rows_of id t vs). split; [reflexivity|].
    cbn [bind]. now rewrite put_lines_open.
  - rewrite print_skips in * by assumption.
    apply bind_ok in E as (unq & -> & E). injection E as <-.
    exists []. split; reflexivity.
Qed.

Lemma node_rows_ids {api : ggml_api} (id : Z) (t : ggml_tensor)
    (rows : list csv_line) :
  node_rows id t rows -> Forall (fun l => line_id l = Some id) rows.
Proof.
  unfold node_rows. destruct (ggml_is_quantized (type t)).
  - intros ->. constructor.
  - intros E. apply print_rows_inv in E as (rows' & E & F).
    rewrite put_lines_open in E by reflexivity. now injection E as ->.
Qed.

Section Groups.

Context {api : ggml_api} (growth : Z -> Z -> Z -> Z).

(** A Deliver that returns has inserted the rows of its node, with the
    counter it found. *)
Lemma deliver_node_rows (t : ggml_tensor) (s : session) (r : bool)
    (s' : session) :
  ggml_eval_layer_output growth t false s = Ok (r, s') ->
  exists rows,
    out_csv s' = put_lines (out_csv s) rows /\ node_rows (id s) t rows.
Proof.
  intros E. destruct (deliver_inv growth _ _ _ _ E) as (_ & _ & _ & _ & P).
  unfold node_rows. destruct (ggml_is_quantized (type t)).
  - injection P as <-. exists []. split; reflexivity.
  - now apply print_on_empty in P.
Qed.

Lemma accepted_nodes_g_model (nodes : list ggml_tensor) (s1 s2 : session) :
  g_model s1 = g_model s2 ->
  accepted_nodes growth s1 nodes = accepted_nodes growth s2 nodes.
Proof.
  intros G. apply filter_ext. intros t. now apply accepts_g_model.
Qed.

(** The rows a run inserts are, in order, those of its accepted nodes: the
    [j]-th accepted node gets the rows of its Deliver with the counter of
    the start plus [j]. *)
Lemma sched_eval_groups (nodes : list ggml_tensor) :
  forall s s', 0 <= id s < 2 ^ 64 -> sched_eval growth nodes s = Ok s' ->
    exists groups,
      out_csv s' = put_lines (out_csv s) (List.concat groups) /\
      List.length groups = List.length (accepted_nodes growth s nodes) /\
      forall j t g,
        nth_error (accepted_nodes growth s nodes) j = Some t ->
        nth_error groups j = Some g ->
        node_rows (to_size_t (id s + Z.of_nat j)) t g.
Proof.
  induction nodes as [|t0 rest IH]; intros s s' R E.
  - apply sched_eval_nil_inv in E as ->. exists []. repeat split.
    intros [|j] t g; discriminate.
  - unfold accepted_nodes. cbn [filter].
    apply sched_eval_cons_inv in E as [[A E]|[A (s1 & Ed & E)]]; rewrite A.
    + now apply IH.
    + destruct (deliver_inv growth _ _ _ _ Ed) as (_ & G & I & _).
      destruct (deliver_node_rows _ _ _ _ Ed) as (rows & O & Nr).
      destruct (IH s1 s') as (groups & O' & L & J); [|exact E|].
      { rewrite I. apply to_size_t_range. }
      rewrite (accepted_nodes_g_model rest s1 s G) in L, J.
      exists (rows :: groups). split; [|split].
      * cbn [List.concat]. now rewrite put_lines_app, <- O.
      * cbn [List.length]. now f_equal.
      * intros [|j] t g Et Eg; cbn [nth_error] in Et, Eg.
        -- injection Et as <-. injection Eg as <-.
           cbn [Z.of_nat]. rewrite Z.add_0_r, to_size_t_small; assumption.
        -- specialize (J j t g Et Eg). rewrite I, to_size_t_succ_add in J.
           now replace (id s + Z.of_nat (S j)) with (id s + (1 + Z.of_nat j))
             by lia.
Qed.

End Groups.

(** C10: the rows that one Deliver inserts are those of its node, all with
    the value the counter has when the Deliver begins; and a run of [main]
    that returns has inserted, after the header, the rows of the accepted
    nodes of the graph in their order: those of the first with the id 0,
    and those of the [j]-th (from 0) with the id [j] (modulo 2^64). *)
Theorem rows_carry_deliver_id {api : ggml_api} (growth : Z -> Z -> Z -> Z) :
  (forall t s r s',
     ggml_eval_layer_output growth t false s = Ok (r, s') ->
     exists rows,
       out_csv s' = put_lines (out_csv s) rows /\
       node_rows (id s) t rows /\
       Forall (fun l => line_id l = Some (id s)) rows) /\
  (forall env arch o,
     params_parse_ok env = true ->
     init_model env = Some arch ->
     main growth env = Ok o ->
     exists groups,
       out_csv (final o)
       = put_lines (init_csv_columns (Stream (out_file_opens env) []))
                   (List.concat groups) /\
       List.length groups
       = List.length (accepted_nodes growth (run_session env arch)
                        (graph_nodes env)) /\
       forall j t g,
         nth_error (accepted_nodes growth (run_session env arch)
                      (graph_nodes env)) j = Some t ->
         nth_error groups j = Some g ->
         node_rows (to_size_t (Z.of_nat j)) t g /\
         Forall (fun l => line_id l = Some (to_size_t (Z.of_nat j))) g).
Proof.
  split.
  - intros t s r s' E.
    destruct (deliver_node_rows growth _ _ _ _ E) as (rows & O & Nr).
    exists rows. split; [exact O|]. split; [exact Nr|].
    exact (node_rows_ids _ t rows Nr).
  - intros env arch o Pa In E.
    apply main_inv in E
      as [[Pf _]|[(_ & Inone & _)|(_ & arch' & s' & In' & E & ->)]];
      [congruence|congruence|].
    assert (arch' = arch) as -> by congruence.
    destruct (sched_eval_groups growth (graph_nodes env)
                (run_session env arch) s')
      as (groups & O & L & J); [cbn; lia|exact E|].
    exists groups. split; [|split; [exact L|]].
    + now destruct (llama_decode_status env =? 0).
    + intros j t g Et Eg. specialize (J j t g Et Eg). cbn [run_session id] in J.
      split; [exact J|]. exact (node_rows_ids _ t g J).
Qed.

Lemma rows_carry_deliver_id_witness :
  accepted_nodes (api := test_api) exact_growth
    (run_session (example_env true) (LLM_ARCH_OTHER 0))
    (graph_nodes (example_env true))
  = [named "l_out-0"; q4_0_row; f32_2x3] /\
  exists o groups,
    main (api := test_api) exact_growth (example_env true) = Ok o /\
    out_csv (final o)
    = put_lines (init_csv_columns (Stream true [])) (List.concat groups) /\
    List.length groups = 3%nat /\
    (forall g, nth_error groups 0 = Some g ->
       node_rows (api := test_api) 0 (named "l_out-0") g) /\
    (forall g, nth_error groups 1 = Some g ->
       node_rows (api := test_api) 1 q4_0_row g) /\
    (forall g, nth_error groups 2 = Some g ->
       node_rows (api := test_api) 2 f32_2x3 g /\
       Forall (fun l => line_id l = Some 2) g).
Proof.
  split; [reflexivity|]. eexists.
  destruct (proj2 (rows_carry_deliver_id (api := test_api) exact_growth)
              (example_env true) (LLM_ARCH_OTHER 0) _ eq_refl eq_refl eq_refl)
    as (groups & O & L & J).
  exists groups. split; [reflexivity|]. split; [exact O|]. split; [exact L|].
  split; [|split].
  - intros g Eg. exact (proj1 (J 0%nat (named "l_out-0") g eq_refl Eg)).
  - intros g Eg. exact (proj1 (J 1%nat q4_0_row g eq_refl Eg)).
  - intros g Eg. exact (J 2%nat f32_2x3 g eq_refl Eg).
Defined.

(** X17: the sequence id tells the accepted nodes of a run apart.  In a run
    of the scheduler started with the counter at 0, with fewer than 2^64
    accepted nodes, the rows inserted are, in order, those of the accepted
    nodes, the [j]-th with the id [j]; so two rows with the same id are rows
    of the same accepted node. *)
Theorem id_identifies_node {api : ggml_api} (growth : Z -> Z -> Z -> Z)
    (nodes : list ggml_tensor) (s s' : session) :
  id s = 0 ->
  Z.of_nat (List.length (accepted_nodes growth s nodes)) < 2 ^ 64 ->
  sched_eval growth nodes s = Ok s' ->
  exists groups,
    out_csv s' = put_lines (out_csv s) (List.concat groups) /\
    List.length groups = List.length (accepted_nodes growth s nodes) /\
    (forall j t g,
       nth_error (accepted_nodes growth s nodes) j = Some t ->
       nth_error groups j = Some g ->
       node_rows (Z.of_nat j) t g) /\
    (forall j j' g g' l l',
       nth_error groups j = Some g -> nth_error groups j' = Some g' ->
       In l g -> In l' g' -> line_id l = line_id l' -> j = j').
Proof.
  intros I0 C E.
  destruct (sched_eval_groups growth nodes s s') as (groups & O & L & J);
    [rewrite I0; lia|exact E|].
  assert (forall j t g,
            nth_error (accepted_nodes growth s nodes) j = Some t ->
            nth_error groups j = Some g ->
            node_rows (Z.of_nat j) t g) as J'.
  { intros j t g Et Eg. specialize (J j t g Et Eg).
    rewrite I0 in J. cbn [Z.add] in J. rewrite to_size_t_small in J; [exact J|].
    assert (j < List.length groups)%nat by (apply nth_error_Some; congruence).
    lia. }
  exists groups. split; [exact O|]. split; [exact L|]. split; [exact J'|].
  intros j j' g g' l l' Hj Hj' Hl Hl' El.
  assert (forall k h, nth_error groups k = Some h ->
                      Forall (fun l => line_id l = Some (Z.of_nat k)) h) as F.
  { intros k h Hk.
    destruct (nth_error (accepted_nodes growth s nodes) k) as [t|] eqn:Et.
    - exact (node_rows_ids _ t h (J' k t h Et Hk)).
    - apply nth_error_None in Et.
      assert (k < List.length groups)%nat by (apply nth_error_Some; congruence).
      lia. }
  pose proof (F j g Hj) as Fj. pose proof (F j' g' Hj') as Fj'.
  rewrite Forall_forall in Fj, Fj'.
  rewrite (Fj l Hl), (Fj' l' Hl') in El. injection El as El. lia.
Qed.

Lemma id_identifies_node_witness :
  exists s' groups,
    sched_eval (api := test_api) exact_growth
      [named "l_out-0"; named "attn_norm"; q4_0_row; f32_2x3]
      (a_session (LLM_ARCH_OTHER 0)) = Ok s' /\
    out_csv s' = put_lines (Stream true []) (List.concat groups) /\
    List.length groups = 3%nat /\
    (forall g, nth_error groups 2 = Some g ->
               node_rows (api := test_api) 2 f32_2x3 g) /\
    (forall j j' g g' l l',
       nth_error groups j = Some g -> nth_error groups j' = Some g' ->
       In l g -> In l' g' -> line_id l = line_id l' -> j = j').
Proof.
  eexists.
  destruct (id_identifies_node (api := test_api) exact_growth
              [named "l_out-0"; named "attn_norm"; q4_0_row; f32_2x3]
              (a_session (LLM_ARCH_OTHER 0)) _ eq_refl eq_refl eq_refl)
    as (groups & O & L & J & D).
  exists groups. split; [reflexivity|]. split; [exact O|]. split; [exact L|].
  split; [|exact D].
  intros g Eg. exact (J 2%nat f32_2x3 g eq_refl Eg).
Defined.

(** The rows of a deliverable node that is not quantized are those of its
    elements, one each, in the order of the walk. *)
Lemma node_rows_deliverable {api : ggml_api} (id : Z) (t : ggml_tensor)
    (g : list csv_line) :
  deliverable t -> node_rows id t g ->
  if ggml_is_quantized (type t) then g = []
  else exists vs,
         map_result (value_of t (delivered_bytes t))
           (range (ggml_nelements t)) = Ok vs /\
         g = rows_of id t vs.
Proof.
  unfold node_rows. intros [_ [Q|(D & N & B)]].
  - now rewrite Q.
  - assert (ggml_is_quantized (type t) = false) as ->
      by (destruct (type t); try discriminate D; reflexivity).
    intros E.
    destruct (print_total (Stream true []) (delivered_bytes t) id t D N B)
      as (vs & _ & M & P).
    rewrite P, put_lines_open in E by reflexivity.
    injection E as <-. exists vs. split; [exact M|reflexivity].
Qed.

(** X15: when the command line is accepted, the output file opens, the model
    loads and every node of the graph is deliverable, [main] returns and the
    output is the header followed, for the accepted nodes in their order, by
    the rows of each: none for a block-quantized node, else one row per
    element, the [k]-th with the multi-index [nth_index k], the value
    decoded for it, and the id [j] of the [j]-th accepted node; so the
    output has as many lines as [1 + expected_rows]. *)
Theorem run_output {api : ggml_api} (growth : Z -> Z -> Z -> Z)
    (env : environment) (arch : llm_arch) :
  params_parse_ok env = true -> out_file_opens env = true ->
  init_model env = Some arch ->
  Forall deliverable (graph_nodes env) ->
  exists o groups,
    main growth env = Ok o /\
    lines (out_csv (final o))
    = header_line "ID,name,type,operation,full_ne,curr_ne,value"
      :: List.concat groups /\
    List.length groups
    = List.length (accepted_nodes growth (run_session env arch)
                     (graph_nodes env)) /\
    (forall j t g,
       nth_error (accepted_nodes growth (run_session env arch)
                    (graph_nodes env)) j = Some t ->
       nth_error groups j = Some g ->
       if ggml_is_quantized (type t) then g = []
       else exists vs,
              map_result (value_of t (delivered_bytes t))
                (range (ggml_nelements t)) = Ok vs /\
              g = rows_of (to_size_t (Z.of_nat j)) t vs) /\
    Z.of_nat (List.length (lines (out_csv (final o))))
    = 1 + expected_rows growth (run_session env arch) (graph_nodes env).
Proof.
  intros Pt Op In D.
  destruct (sched_lines_count growth (graph_nodes env) D (run_session env arch))
    as (s' & E & Lc).
  { discriminate. }
  { unfold run_session. cbn [out_csv]. now rewrite Op. }
  destruct (sched_eval_groups growth (graph_nodes env) (run_session env arch) s')
    as (groups & O & L & J); [cbn; lia|exact E|].
  assert (lines (out_csv s')
          = header_line "ID,name,type,operation,full_ne,curr_ne,value"
            :: List.concat groups) as Ls.
  { rewrite O. unfold run_session. cbn [out_csv]. rewrite Op.
    now rewrite put_lines_open by reflexivity. }
  assert (Z.of_nat (List.length (lines (out_csv (run_session env arch)))) = 1)
    as H1 by (unfold run_session; cbn [out_csv]; rewrite Op; reflexivity).
  assert (exists o, main growth env = Ok o /\ final o = s') as (o & M & F).
  { unfold main, run. rewrite Pt, In. cbn [negb].
    unfold run_session in E. cbn [initial_session out_csv g_model id cb_data].
    rewrite E. cbn [bind].
    destruct (llama_decode_status env =? 0); cbn [negb bind];
      eexists; split; reflexivity. }
  exists o, groups. rewrite F.
  split; [exact M|]. split; [exact Ls|]. split; [exact L|]. split; [|lia].
  intros j t g Et Eg. specialize (J j t g Et Eg). cbn [run_session id] in J.
  apply node_rows_deliverable; [|exact J].
  apply nth_error_In in Et. apply filter_In in Et as [Ht _].
  rewrite Forall_forall in D. now apply D.
Qed.

Lemma run_output_witness :
  exists o groups,
    main (api := test_api) exact_growth (example_env true) = Ok o /\
    lines (out_csv (final o))
    = header_line "ID,name,type,operation,full_ne,curr_ne,value"
      :: List.concat groups /\
    List.length groups = 3%nat /\
    (forall g, nth_error groups 1 = Some g -> g = []) /\
    (forall g, nth_error groups 2 = Some g ->
       exists vs,
         map_result (value_of (api := test_api) f32_2x3 (data f32_2x3))
           (range 6) = Ok vs /\
         g = rows_of (api := test_api) 2 f32_2x3 vs) /\
    Z.of_nat (List.length (lines (out_csv (final o)))) = 1 + (1 + 6).
Proof.
  destruct (run_output (api := test_api) exact_growth (example_env true)
              (LLM_ARCH_OTHER 0) eq_refl eq_refl eq_refl
              (example_env_deliverable true))
    as (o & groups & M & Ls & L & J & C).
  exists o, groups. split; [exact M|]. split; [exact Ls|]. split; [exact L|].
  split; [|split; [|exact C]].
  - intros g Eg. exact (J 1%nat q4_0_row g eq_refl Eg).
  - intros g Eg. exact (J 2%nat f32_2x3 g eq_refl Eg).
Defined.

(** ** The walk over a contiguous tensor *)

Lemma map_result_ext_in {A B : Type} (f g : A -> result B) (l : list A) :
  (forall a, In a l -> f a = g a) -> map_result f l = map_result g l.
Proof.
  induction l as [|a l IH]; intros E; [reflexivity|].
  cbn [map_result]. rewrite (E a (or_introl eq_refl)), IH; [reflexivity|].
  intros a' I. apply E. now right.
Qed.

(** For row-major strides without padding, line 68 gives the [k]-th
    multi-index the offset [w * k]. *)
Lemma contiguous_offset (w : Z) (ne nb : dims) (k : Z) :
  contiguous w ne nb -> nonneg ne ->
  0 <= k < d0 ne * d1 ne * d2 ne * d3 ne ->
  offset_of nb (nth_index ne k) = to_size_t (w * k).
Proof.
  intros (C0 & C1 & C2 & C3) N Hk.
  unfold offset_of, elem_offset. cbn [dim]. f_equal.
  rewrite <- (element_index_nth_index ne k N Hk) at 5.
  unfold element_index. rewrite C0, C1, C2, C3. ring.
Qed.

(** X12: for row-major strides without padding and non-negative extents the
    printer reads memory in order: the [k]-th element it decodes, whose row
    is the [k]-th it writes, is decoded at the offset [w * k] (modulo 2^64)
    that line 68 computes for it. *)
Theorem contiguous_walk_in_memory_order {api : ggml_api} (w : Z)
    (csv : ofstream) (bytes : buffer) (id : Z) (t : ggml_tensor) :
  contiguous w (ne t) (nb t) -> nonneg (ne t) ->
  ggml_print_tensor_to_csv csv bytes id t
  = (vs <- map_result
             (fun k => decode_element (type t) bytes (unquantized_of t bytes)
                         (to_size_t (w * k)))
             (range (ggml_nelements t)) ;;
     Ok (put_lines csv (rows_of id t vs))).
Proof.
  intros C N. rewrite print_spec by assumption.
  rewrite (map_result_ext_in (value_of t bytes)
             (fun k => decode_element (type t) bytes (unquantized_of t bytes)
                         (to_size_t (w * k)))); [reflexivity|].
  intros k Hk. apply in_range in Hk. unfold value_of.
  now rewrite (contiguous_offset w (ne t) (nb t) k C N Hk).
Qed.

Lemma contiguous_walk_in_memory_order_witness :
  ggml_print_tensor_to_csv (api := test_api) (Stream true [])
    (data f32_2x3) 0 f32_2x3
  = (vs <- map_result
             (fun k => decode_element GGML_TYPE_F32 (data f32_2x3) None
                         (to_size_t (4 * k)))
             (range 6) ;;
     Ok (put_lines (Stream true []) (rows_of (api := test_api) 0 f32_2x3 vs))).
Proof.
  apply (contiguous_walk_in_memory_order (api := test_api) 4 (Stream true [])
           (data f32_2x3) 0 f32_2x3).
  - unfold contiguous. cbn. repeat split.
  - exact f32_2x3_nonneg.
Defined.

(** ** The block-decode routine *)

Section Dequantizer.

Context {api : ggml_api} (growth : Z -> Z -> Z -> Z)
        (f : ggml_type -> buffer -> Z -> list float32).

(** For a type that is not quantized the printer does not call the
    block-decode routine. *)
Lemma print_without_to_float (csv : ofstream) (bytes : buffer) (id : Z)
    (t : ggml_tensor) :
  ggml_is_quantized (type t) = false ->
  ggml_print_tensor_to_csv (api := with_to_float api f) csv bytes id t
  = ggml_print_tensor_to_csv (api := api) csv bytes id t.
Proof.
  intros Q. unfold ggml_print_tensor_to_csv, dequantize. rewrite Q.
  reflexivity.
Qed.

Lemma callback_without_to_float (t : ggml_tensor) (ask : bool) (s : session) :
  ggml_eval_layer_output (api := with_to_float api f) growth t ask s
  = ggml_eval_layer_output (api := api) growth t ask s.
Proof.
  unfold ggml_eval_layer_output. destruct ask; [reflexivity|].
  cbn [ggml_nbytes with_to_float].
  destruct (if negb (buffer_is_host t) then _ else _) as [cb|e];
    [|reflexivity].
  cbn [bind]. destruct (ggml_is_quantized (type t)) eqn:Q; cbn [negb];
    [reflexivity|].
  now rewrite print_without_to_float.
Qed.

Lemma sched_eval_without_to_float (nodes : list ggml_tensor) :
  forall s, sched_eval (api := with_to_float api f) growth nodes s
            = sched_eval (api := api) growth nodes s.
Proof.
  induction nodes as [|t rest IH]; intros s; [reflexivity|].
  cbn [sched_eval]. rewrite callback_without_to_float.
  destruct (ggml_eval_layer_output growth t true s) as [[[] s1]|e];
    cbn [bind fst snd]; [|apply IH|reflexivity].
  rewrite callback_without_to_float.
  destruct (ggml_eval_layer_output growth t false s1) as [[[] s2]|e];
    cbn [bind fst snd]; [apply IH|reflexivity|reflexivity].
Qed.

End Dequantizer.

(** C2 fails as stated: the Deliver of a block-quantized tensor of 2048
    elements gives the same session, with no line written, when the
    block-decode routine yields no float at all: the tensor is not
    dequantized and no element of a parallel buffer is read. *)
Lemma quantized_tensor_never_dequantized :
  ggml_is_quantized (type q4_0_tensor) = true /\
  ggml_nelements q4_0_tensor = 2048 /\
  exists s',
    ggml_eval_layer_output (api := test_api) exact_growth q4_0_tensor false
      (a_session (LLM_ARCH_OTHER 0)) = Ok (true, s') /\
    ggml_eval_layer_output (api := with_to_float test_api (fun _ _ _ => []))
      exact_growth q4_0_tensor false (a_session (LLM_ARCH_OTHER 0))
    = Ok (true, s') /\
    lines (out_csv s') = [].
Proof.
  split; [reflexivity|]. split; [reflexivity|].
  eexists. split; [reflexivity|]. split; reflexivity.
Qed.

(** C2, amended: a block-quantized tensor that is delivered is neither
    dequantized nor walked.  The Deliver phase hands only tensors that are
    not quantized to the printer, so no invocation of the callback and no
    run of [main] depends on the block-decode routine: with any other
    routine in its place they give the same result. *)
Theorem dequantizer_never_called {api : ggml_api} (growth : Z -> Z -> Z -> Z)
    (f : ggml_type -> buffer -> Z -> list float32) :
  (forall t ask s,
     ggml_eval_layer_output (api := with_to_float api f) growth t ask s
     = ggml_eval_layer_output (api := api) growth t ask s) /\
  (forall t s r s',
     ggml_is_quantized (type t) = true ->
     ggml_eval_layer_output (api := api) growth t false s = Ok (r, s') ->
     out_csv s' = out_csv s) /\
  (forall env,
     main (api := with_to_float api f) growth env
     = main (api := api) growth env).
Proof.
  split; [|split].
  - apply callback_without_to_float.
  - intros t s r s' Q E.
    destruct (deliver_inv growth _ _ _ _ E) as (_ & _ & _ & _ & P).
    rewrite Q in P. now injection P.
  - intros env. unfold main, run.
    destruct (params_parse_ok env); [|reflexivity]. cbn [negb].
    destruct (init_model env); [|reflexivity].
    now rewrite sched_eval_without_to_float.
Qed.

Lemma dequantizer_never_called_witness :
  exists s',
    ggml_eval_layer_output (api := test_api) exact_growth q4_0_row false
      (a_session LLM_ARCH_WAVTOKENIZER_DEC) = Ok (true, s') /\
    out_csv s' = Stream true [].
Proof.
  eexists. split; [reflexivity|].
  exact (proj1 (proj2 (dequantizer_never_called (api := test_api) exact_growth
                         (fun _ _ _ => [])))
           q4_0_row (a_session LLM_ARCH_WAVTOKENIZER_DEC) true _
           eq_refl eq_refl).
Defined.
